(** * Status cog: update detection and fan-out

    A shallow embedding of [status/status.py] (the [Status] cog): the polling
    cycle [actually_check_updates], the ghost-update check
    [check_real_update], the subscription lookup [get_channels], the sender
    [send_updated_feed] and the [statusset add] / [statusset remove]
    commands.

    Python dictionaries held in Red's [Config] are finite maps; the feed
    dictionary built by [process_feed] is a mutable object, kept in a heap
    and passed around by reference; exceptions are an explicit outcome, and
    everything the cog does to the outside world (log lines, configuration
    writes, messages) is appended to a trace. *)

From stdpp Require Import gmap strings list pretty.
From Stdlib Require Import ZArith Lia Ascii String.

Local Open Scope Z_scope.
Local Open Scope string_scope.

(** ** Values *)

(** The exception classes the cog names in its [except] clauses, and the
    ones the libraries it calls may raise.  A subclass is identified with the
    class that catches it. *)
Inductive exn :=
| KeyError
| TypeError
| AttributeError
| IndexError
| ValueError
| ConnectionRefusedError
| URLError
| Forbidden
| HTTPException
| OtherError (name : string).

#[global] Instance exn_eq_dec : EqDecision exn.
Proof. solve_decision. Defined.

Inductive outcome (A : Type) :=
| Return (a : A)
| Raise (e : exn).
Arguments Return {A} a.
Arguments Raise {A} e.

(** One entry of a feed dictionary's ["fields"] list: [{"name": .., "value": ..}]. *)
Record field := { name : string; value : string }.

#[global] Instance field_eq_dec : EqDecision field.
Proof. solve_decision. Defined.

(** An absolute point in time ([datetime.datetime]), in microseconds since
    the epoch. *)
Record datetime := { micros : Z }.

(** A Python float, kept as the quotient it is the rounding of. *)
Record pyfloat := { numerator : Z; denominator : positive }.

(** [datetime.timestamp()]: seconds since the epoch, as a float. *)
Definition timestamp (d : datetime) : pyfloat :=
  {| numerator := micros d; denominator := 1000000 |}.

(** What the ["time"] key of a feed dictionary can hold. *)
Inductive time_value :=
| PyDatetime (d : datetime)
| PyFloat (f : pyfloat).

(** The dictionary [process_feed] returns (see the copy of its body in
    [devcheckfeed]): keys ["fields"], ["time"], ["title"], ["desc"],
    ["friendlyname"] and ["colour"]. *)
Record feeddict := {
  fields : list field;
  time : time_value;
  title : string;
  desc : string;
  friendlyname : string;
  colour : Z
}.

Definition set_time (t : time_value) (fd : feeddict) : feeddict :=
  {| fields := fields fd; time := t; title := title fd; desc := desc fd;
     friendlyname := friendlyname fd; colour := colour fd |}.

(** The two shapes [old_fields] takes in [check_real_update]: the stored
    list, or the string ["hello"] when nothing is stored. *)
Inductive pyvalue :=
| PyStr (s : string)
| PyList (l : list field).

(** Python's [==] on these values: a string never equals a list; lists are
    compared element by element, in order. *)
Definition py_eq (a b : pyvalue) : bool :=
  match a, b with
  | PyStr s, PyStr s' => bool_decide (s = s')
  | PyList l, PyList l' => bool_decide (l = l')
  | _, _ => false
  end.

(** What [feedparser.parse] returns.  [status] and [etag] are attributes
    that may be missing. *)
Record response := {
  status : option Z;
  etag : option string;
  body : string
}.

(** A text channel as the cog uses it. *)
Record channel := {
  channel_id : Z;
  guild_id : Z;
  mention : string;
  can_send_messages : bool;
  can_embed_links : bool
}.

Record embed := {
  embed_title : string;
  embed_description : string;
  embed_timestamp : option time_value;
  embed_colour : Z;
  embed_fields : list field
}.

Inductive message :=
| MsgEmbed (e : embed)
| MsgText (s : string).

(** What a guild stores under a service: a list of channel ids, or, in
    configurations written by older versions, a single channel id. *)
Inductive subscription :=
| SubInt (c : Z)
| SubList (l : list Z).

#[global] Instance subscription_eq_dec : EqDecision subscription.
Proof. solve_decision. Defined.

(** ** The trace *)

Inductive level := DEBUG | WARNING.

Inductive log_record :=
| LogGhost (service : string)
| LogFeedDict (service : string) (fd : feeddict)
| LogSending (service : string) (n : nat)
| LogDone
| LogNoStatusUpdate (service : string)
| LogUnableToConnect (service : string)
| LogOldFields (v : pyvalue)
| LogNewFields (v : pyvalue)
| LogTimestampError (t : time_value)
| LogUnableToSend (channel guild : Z).

(** Replies of the [statusset] commands ([ctx.send]). *)
Inductive reply :=
| ReplyInvalidService
| ReplyNoSendPermission (mention : string)
| ReplyNoEmbedPermission (mention : string)
| ReplyAlreadyReceives (mention friendly : string)
| ReplyDone (mention friendly : string)
| ReplyNotSending (friendly mention : string)
| ReplyRemoved (friendly mention : string).

Inductive event :=
| Log (lvl : level) (r : log_record)
| SetEtags (new : gmap string string)
| SetFeedStore (new : gmap string feeddict)
| SetGuildFeeds (guild : Z) (new : gmap string subscription)
| ChannelSend (c : channel) (m : message) (failure : option exn)
| CtxSend (r : reply).

(** ** State

    [cfg_etags], [cfg_feed_store] and [cfg_guilds] are what Red's [Config]
    holds: the global [etags] and [feed_store] dictionaries and, per guild
    id and in the order [all_guilds()] lists them, the guild's [feeds]
    dictionary.  [etags] and [feeds] are the dictionaries bound by an open
    [async with self.config...() as ...] block: the block works on them in
    place and they are written back when it is left. *)

Record state := {
  cfg_etags : gmap string string;
  cfg_feed_store : gmap string feeddict;
  cfg_guilds : list (Z * gmap string subscription);
  etags : gmap string string;
  feeds : gmap string subscription;
  heap : gmap nat feeddict;
  trace : list event
}.

Definition with_cfg_etags (v : gmap string string) (s : state) : state :=
  {| cfg_etags := v; cfg_feed_store := cfg_feed_store s; cfg_guilds := cfg_guilds s;
     etags := etags s; feeds := feeds s; heap := heap s; trace := trace s |}.

Definition with_cfg_feed_store (v : gmap string feeddict) (s : state) : state :=
  {| cfg_etags := cfg_etags s; cfg_feed_store := v; cfg_guilds := cfg_guilds s;
     etags := etags s; feeds := feeds s; heap := heap s; trace := trace s |}.

Definition with_cfg_guilds (v : list (Z * gmap string subscription)) (s : state) : state :=
  {| cfg_etags := cfg_etags s; cfg_feed_store := cfg_feed_store s; cfg_guilds := v;
     etags := etags s; feeds := feeds s; heap := heap s; trace := trace s |}.

Definition with_etags (v : gmap string string) (s : state) : state :=
  {| cfg_etags := cfg_etags s; cfg_feed_store := cfg_feed_store s; cfg_guilds := cfg_guilds s;
     etags := v; feeds := feeds s; heap := heap s; trace := trace s |}.

Definition with_feeds (v : gmap string subscription) (s : state) : state :=
  {| cfg_etags := cfg_etags s; cfg_feed_store := cfg_feed_store s; cfg_guilds := cfg_guilds s;
     etags := etags s; feeds := v; heap := heap s; trace := trace s |}.

Definition with_heap (v : gmap nat feeddict) (s : state) : state :=
  {| cfg_etags := cfg_etags s; cfg_feed_store := cfg_feed_store s; cfg_guilds := cfg_guilds s;
     etags := etags s; feeds := feeds s; heap := v; trace := trace s |}.

Definition with_trace (v : list event) (s : state) : state :=
  {| cfg_etags := cfg_etags s; cfg_feed_store := cfg_feed_store s; cfg_guilds := cfg_guilds s;
     etags := etags s; feeds := feeds s; heap := heap s; trace := v |}.

(** ** The monad of the cog's coroutines

    A coroutine takes the state and gives back a value or an exception,
    and the state it leaves behind: what was written before an exception
    stays written. *)
Definition M (A : Type) : Type := state -> outcome A * state.

Definition ret {A} (a : A) : M A := fun s => (Return a, s).

Definition bind {A B} (m : M A) (k : A -> M B) : M B :=
  fun s => match m s with
           | (Return a, s') => k a s'
           | (Raise e, s') => (Raise e, s')
           end.

Definition raise {A} (e : exn) : M A := fun s => (Raise e, s).

(** [try: body except ...: handler]: [handler e] is [None] when no clause
    matches [e]. *)
Definition try_except {A} (body : M A) (handler : exn -> option (M A)) : M A :=
  fun s => match body s with
           | (Return a, s') => (Return a, s')
           | (Raise e, s') =>
               match handler e with
               | Some h => h s'
               | None => (Raise e, s')
               end
           end.

Definition lift {A} (o : outcome A) : M A := fun s => (o, s).

Definition get_state : M state := fun s => (Return s, s).

Definition emit (e : event) : M unit :=
  fun s => (Return tt, with_trace (trace s ++ [e]) s).

Definition log (lvl : level) (r : log_record) : M unit := emit (Log lvl r).

Declare Scope cog_scope.
Delimit Scope cog_scope with cog.
Notation "x <- m ;; k" := (bind m (fun x => k))
  (at level 100, m at next level, k at level 200, right associativity) : cog_scope.
Notation "m ;; k" := (bind m (fun _ => k))
  (at level 100, k at level 200, right associativity) : cog_scope.
Local Open Scope cog_scope.

(** [for x in l: body x]. *)
Fixpoint for_each {A} (l : list A) (body : A -> M unit) : M unit :=
  match l with
  | [] => ret tt
  | x :: l' => body x ;; for_each l' body
  end.

(** *** The heap of feed dictionaries *)

Definition alloc (fd : feeddict) : M nat :=
  fun s => let r := fresh (dom (heap s)) in
           (Return r, with_heap (<[r := fd]> (heap s)) s).

(** Reading the dictionary behind a reference.  References come from
    [alloc] only, so the lookup finds it. *)
Definition deref (r : nat) : M feeddict :=
  fun s => match heap s !! r with
           | Some fd => (Return fd, s)
           | None => (Raise (OtherError "unbound reference"), s)
           end.

(** [feeddict["time"] = t]. *)
Definition assign_time (r : nat) (t : time_value) : M unit :=
  fun s => match heap s !! r with
           | Some fd => (Return tt, with_heap (<[r := set_time t fd]> (heap s)) s)
           | None => (Raise (OtherError "unbound reference"), s)
           end.

(** ** Constants *)

Definition FEED_URLS : list (string * string) :=
  [ ("discord", "https://discordstatus.com/history.atom");
    ("github", "https://www.githubstatus.com/history.atom");
    ("cloudflare", "https://www.cloudflarestatus.com/history.atom");
    ("python", "https://status.python.org/history.atom");
    ("twitter_api", "https://api.twitterstat.us/history.atom");
    ("statuspage", "https://metastatuspage.com/history.atom");
    ("zoom", "https://status.zoom.us/history.atom");
    ("oracle_cloud", "https://ocistatus.oraclecloud.com/history.atom") ].

Definition FEED_FRIENDLY_NAMES : list (string * string) :=
  [ ("discord", "Discord");
    ("github", "GitHub");
    ("cloudflare", "Cloudflare");
    ("python", "Python");
    ("twitter_api", "Twitter API");
    ("statuspage", "Statuspage");
    ("zoom", "Zoom");
    ("oracle_cloud", "Oracle Cloud") ].

(** ** ChangeDetector: [check_real_update] *)

Definition config_set_feed_store (new : gmap string feeddict) : M unit :=
  fun s => (Return tt, with_trace (trace s ++ [SetFeedStore new]) (with_cfg_feed_store new s)).

(** [x.timestamp()]: a float has no such method. *)
Definition call_timestamp (t : time_value) : outcome pyfloat :=
  match t with
  | PyDatetime d => Return (timestamp d)
  | PyFloat _ => Raise AttributeError
  end.

(** Check that there has been an actual update to the status against last
    known; if so, update the feed store.  An entry of the feed store is a
    dictionary this function stored, so it has the key ["fields"]; the
    [feed_store] context manager writes the dictionary back to the
    configuration when the block is left with the dictionary changed, and
    what it writes under [service] is the candidate as it is then, its time
    already replaced. *)
Definition check_real_update (service : string) (feeddict : nat) : M bool :=
  s <- get_state ;;
  let feed_store := cfg_feed_store s in
  let old_fields :=
    match feed_store !! service with
    | Some stored => PyList (fields stored)
    | None => PyStr "hello"
    end in
  fd <- deref feeddict ;;
  let new_fields := PyList (fields fd) in
  log DEBUG (LogOldFields old_fields) ;;
  log DEBUG (LogNewFields new_fields) ;;
  if py_eq old_fields new_fields then ret false
  else
    t <- lift (call_timestamp (time fd)) ;;
    assign_time feeddict (PyFloat t) ;;
    fd' <- deref feeddict ;;
    config_set_feed_store (<[service := fd']> feed_store) ;;
    ret true.

(** ** External collaborators

    The libraries the cog calls: [feedparser], the [rsshelper] module,
    the bot (Red / discord.py) and [re]. *)
Record Env := {
  (** [feedparser.parse(url, etag=...)] *)
  feedparser_parse : string -> option string -> outcome response;
  (** [rsshelper.process_feed(service, response)] *)
  helper_process_feed : string -> response -> outcome feeddict;
  (** [bot.get_channel(id)]: [None] when the id resolves to no channel *)
  bot_get_channel : Z -> option channel;
  (** [bot.embed_requested(channel, None)] *)
  bot_embed_requested : option channel -> outcome bool;
  (** whether [discord.Embed(timestamp=t)] raises [TypeError] *)
  embed_rejects_timestamp : time_value -> bool;
  (** [channel.send(...)] *)
  channel_send : channel -> message -> outcome unit;
  (** [re.sub(regex, r"<\1>", msg)] with the cog's URL pattern *)
  re_sub_urls : string -> string
}.

Section Cog.

Variable env : Env.

(** ** SubscriptionIndex: [get_channels] *)

(** [channels.extend(to_append)], and [channels.append(to_append)] when
    [extend] raises [TypeError] (an integer is not iterable). *)
Definition extend_or_append (channels : list Z) (to_append : subscription) : list Z :=
  match to_append with
  | SubList l => channels ++ l
  | SubInt c => channels ++ [c]
  end.

(** The loop over [feeds.items()]. *)
Fixpoint collect_channels (servers : list (Z * gmap string subscription))
    (target_service : string) (channels : list Z) : list Z :=
  match servers with
  | [] => channels
  | server :: rest =>
      match server.2 !! target_service with
      | None => collect_channels rest target_service channels
      | Some to_append =>
          collect_channels rest target_service (extend_or_append channels to_append)
      end
  end.

(** Get the channels for a feed.  The list is channel ids from config,
    they may be invalid. *)
Definition get_channels (service : string) : M (list Z) :=
  s <- get_state ;;
  ret (collect_channels (cfg_guilds s) service []).

(** ** Notifier: [send_updated_feed] *)

Definition Embed (title description : string) (timestamp : option time_value)
    (colour : Z) : outcome embed :=
  let e := {| embed_title := title; embed_description := description;
              embed_timestamp := timestamp; embed_colour := colour;
              embed_fields := [] |} in
  match timestamp with
  | Some t => if embed_rejects_timestamp env t then Raise TypeError else Return e
  | None => Return e
  end.

Definition add_field (e : embed) (f : field) : embed :=
  {| embed_title := embed_title e; embed_description := embed_description e;
     embed_timestamp := embed_timestamp e; embed_colour := embed_colour e;
     embed_fields := embed_fields e ++ [f] |}.

Definition nl : string := String "010"%char "".

(** [await channel.send(...)]: on [None] the attribute lookup itself raises. *)
Definition call_send (ch : option channel) (m : message) : M unit :=
  match ch with
  | None => raise AttributeError
  | Some c =>
      match channel_send env c m with
      | Return _ => emit (ChannelSend c m None)
      | Raise e => emit (ChannelSend c m (Some e)) ;; raise e
      end
  end.

(** The [log.debug] of both [except (Forbidden, AttributeError)] clauses:
    its message reads [channel.id] and [channel.guild.id]. *)
Definition log_unable_to_send (ch : option channel) : M unit :=
  match ch with
  | None => raise AttributeError
  | Some c => log DEBUG (LogUnableToSend (channel_id c) (guild_id c))
  end.

Definition guarded_send (ch : option channel) (m : message) : M unit :=
  try_except (call_send ch m)
    (fun e => match e with
              | Forbidden | AttributeError => Some (log_unable_to_send ch)
              | _ => None
              end).

(** Send a feeddict to the specified channel. *)
Definition send_updated_feed (feeddict : nat) (channel : Z) : M unit :=
  let channel := bot_get_channel env channel in
  requested <- lift (bot_embed_requested env channel) ;;
  fd <- deref feeddict ;;
  if (requested : bool) then
    embed <- try_except
               (lift (Embed (title fd) (desc fd) (Some (time fd)) (colour fd)))
               (fun e => match e with
                         | TypeError =>
                             Some (log WARNING (LogTimestampError (time fd)) ;;
                                   lift (Embed (title fd) (desc fd) None (colour fd)))
                         | _ => None
                         end) ;;
    let embed := fold_left add_field (reverse (fields fd)) embed in
    guarded_send channel (MsgEmbed embed)
  else
    let msg := "**" ++ title fd ++ "**" ++ nl ++ desc fd ++ nl ++ nl in
    let msg := fold_left
                 (fun msg i => msg ++ "**" ++ name i ++ "**" ++ nl ++ value i ++ nl)
                 (reverse (fields fd)) msg in
    let msg := re_sub_urls env msg in
    guarded_send channel (MsgText msg).

(** ** DispatchLoop: [actually_check_updates] *)

(** [etags[service] = v], on the dictionary of the open block. *)
Definition set_etag (service v : string) : M unit :=
  fun s => (Return tt, with_etags (<[service := v]> (etags s)) s).

(** Reading an attribute of the parsed feed. *)
Definition attr {A} (a : option A) : outcome A :=
  match a with
  | Some x => Return x
  | None => Raise AttributeError
  end.

(** Process a [FeedParserDict] into a nicer dict for embeds. *)
Definition process_feed (service : string) (feedparser : response) : M nat :=
  fd <- lift (helper_process_feed env service feedparser) ;;
  alloc fd.

(** The inner [try] of the loop body: parse with the stored etag, and
    without one when the lookup raises [KeyError]. *)
Definition fetch (service url : string) : M response :=
  try_except
    (s <- get_state ;;
     match etags s !! service with
     | None => raise KeyError
     | Some e => lift (feedparser_parse env url (Some e))
     end)
    (fun e => match e with
              | KeyError =>
                  Some (response <- lift (feedparser_parse env url None) ;;
                        set_etag service "hello" ;;
                        ret response)
              | _ => None
              end).

(** The fan-out of one accepted update. *)
Definition fan_out (service : string) (feeddict : nat) : M unit :=
  fd <- deref feeddict ;;
  log DEBUG (LogFeedDict service fd) ;;
  channels <- get_channels service ;;
  log DEBUG (LogSending service (List.length channels)) ;;
  for_each channels (fun channel => send_updated_feed feeddict channel) ;;
  log DEBUG LogDone.

(** What follows [process_feed] in the loop body: the ghost check, then
    either the [continue] or the fan-out. *)
Definition dispatch (service : string) (feeddict : nat) : M unit :=
  real <- check_real_update service feeddict ;;
  if negb real then log DEBUG (LogGhost service)
  else fan_out service feeddict.

(** The outer [try] block of the loop body. *)
Definition check_feed_try (feed : string * string) : M unit :=
  response <- fetch feed.1 feed.2 ;;
  code <- lift (attr (status response)) ;;
  if (code =? 200)%Z then
    tag <- lift (attr (etag response)) ;;
    set_etag feed.1 tag ;;
    feeddict <- process_feed feed.1 response ;;
    dispatch feed.1 feeddict
  else log DEBUG (LogNoStatusUpdate feed.1).

(** The body of [for feed in FEED_URLS.items()]: the [try] block with its
    two [except] clauses. *)
Definition check_feed (feed : string * string) : M unit :=
  try_except (check_feed_try feed)
    (fun e => match e with
              | ConnectionRefusedError | URLError =>
                  Some (log WARNING (LogUnableToConnect feed.1))
              | KeyError => Some (set_etag feed.1 "hello")
              | _ => None
              end).

(** [async with self.config.etags() as etags]: the block works on a copy
    of the stored dictionary, which is stored when the block is left, by a
    return or by an exception, if it differs from the stored one. *)
Definition with_config_etags {A} (block : M A) : M A :=
  fun s =>
    let '(r, s') := block (with_etags (cfg_etags s) s) in
    if decide (etags s' = cfg_etags s') then (r, s')
    else (r, with_trace (trace s' ++ [SetEtags (etags s')])
               (with_cfg_etags (etags s') s')).

Definition actually_check_updates : M unit :=
  with_config_etags (for_each FEED_URLS check_feed).

(** ** The [statusset] commands *)

Fixpoint assoc {V} (k : Z) (l : list (Z * V)) : option V :=
  match l with
  | [] => None
  | (k', v) :: l' => if decide (k = k') then Some v else assoc k l'
  end.

Fixpoint assoc_set {V} (k : Z) (v : V) (l : list (Z * V)) : list (Z * V) :=
  match l with
  | [] => [(k, v)]
  | (k', v') :: l' => if decide (k = k') then (k, v) :: l' else (k', v') :: assoc_set k v l'
  end.

(** [self.config.guild(guild).feeds()]: a guild with nothing stored has
    the registered default, the empty dictionary. *)
Definition guild_feeds (s : state) (guild : Z) : gmap string subscription :=
  default ∅ (assoc guild (cfg_guilds s)).

(** [async with self.config.guild(guild).feeds() as feeds]. *)
Definition with_guild_feeds {A} (guild : Z) (block : M A) : M A :=
  fun s =>
    let original := guild_feeds s guild in
    let '(r, s') := block (with_feeds original s) in
    if decide (feeds s' = original) then (r, s')
    else (r, with_trace (trace s' ++ [SetGuildFeeds guild (feeds s')])
               (with_cfg_guilds (assoc_set guild (feeds s') (cfg_guilds s')) s')).

(** [feeds[service]] *)
Definition feeds_get (service : string) : M subscription :=
  fun s => match feeds s !! service with
           | Some v => (Return v, s)
           | None => (Raise KeyError, s)
           end.

(** [feeds[service] = v] *)
Definition feeds_set (service : string) (v : subscription) : M unit :=
  fun s => (Return tt, with_feeds (<[service := v]> (feeds s)) s).

(** [x in v]: an integer is not a container. *)
Definition py_in (x : Z) (v : subscription) : outcome bool :=
  match v with
  | SubList l => Return (bool_decide (x ∈ l))
  | SubInt _ => Raise TypeError
  end.

(** [str.lower()], on the ASCII letters.  No key of [FEED_URLS] has a
    letter that a character outside ASCII lowers to. *)
Definition lower_ascii (c : ascii) : ascii :=
  let n := nat_of_ascii c in
  if ((65 <=? n) && (n <=? 90))%nat then ascii_of_nat (n + 32) else c.

Fixpoint lower (s : string) : string :=
  match s with
  | EmptyString => EmptyString
  | String c s' => String (lower_ascii c) (lower s')
  end.

(** [d[key]] on the constant dictionaries. *)
Fixpoint getitem (key : string) (d : list (string * string)) : outcome string :=
  match d with
  | [] => Raise KeyError
  | (k, v) :: d' => if decide (key = k) then Return v else getitem key d'
  end.

Definition keys (d : list (string * string)) : list string := d.*1.

(** [v.append(x)] *)
Definition py_append (v : subscription) (x : Z) : outcome subscription :=
  match v with
  | SubList l => Return (SubList (l ++ [x]))
  | SubInt _ => Raise AttributeError
  end.

(** The [async with] block of [statusset add]; it gives [true] when the
    command has replied and returned from inside the block. *)
Definition statusset_add_block (service : string) (channel : channel) : M bool :=
  returned <- try_except
                (v <- feeds_get service ;;
                 present <- lift (py_in (channel_id channel) v) ;;
                 if (present : bool) then
                   friendly <- lift (getitem service FEED_FRIENDLY_NAMES) ;;
                   emit (CtxSend (ReplyAlreadyReceives (mention channel) friendly)) ;;
                   ret true
                 else ret false)
                (fun e => match e with KeyError => Some (ret false) | _ => None end) ;;
  if (returned : bool) then ret true
  else
    try_except
      (v <- feeds_get service ;;
       match v with
       | SubInt c => feeds_set service (SubList [c])
       | SubList _ => ret tt
       end)
      (fun e => match e with
                | KeyError => Some (feeds_set service (SubList []))
                | _ => None
                end) ;;
    v <- feeds_get service ;;
    v' <- lift (py_append v (channel_id channel)) ;;
    feeds_set service v' ;;
    ret false.

(** [statusset add]: start getting status updates for the chosen service. *)
Definition statusset_add (ctx_guild : Z) (service : string) (channel : channel) : M unit :=
  let service := lower service in
  if negb (bool_decide (service ∈ keys FEED_URLS)) then emit (CtxSend ReplyInvalidService)
  else if negb (can_send_messages channel) then
    emit (CtxSend (ReplyNoSendPermission (mention channel)))
  else if negb (can_embed_links channel) then
    emit (CtxSend (ReplyNoEmbedPermission (mention channel)))
  else
    returned <- with_guild_feeds ctx_guild (statusset_add_block service channel) ;;
    if (returned : bool) then ret tt
    else
      friendly <- lift (getitem service FEED_FRIENDLY_NAMES) ;;
      emit (CtxSend (ReplyDone (mention channel) friendly)).

(** [l.remove(x)]: drops the first occurrence. *)
Fixpoint list_remove (x : Z) (l : list Z) : list Z :=
  match l with
  | [] => []
  | y :: l' => if decide (x = y) then l' else y :: list_remove x l'
  end.

(** [channel.mention] *)
Definition get_mention (ch : option channel) : outcome string :=
  match ch with
  | Some c => Return (mention c)
  | None => Raise AttributeError
  end.

(** The [async with] block of [statusset remove].  Its [try] gives [None]
    when the command has replied and returned, and otherwise the channel
    the last reply names. *)
Definition statusset_remove_block (service : string) (channel : channel) : M unit :=
  removed <- try_except
    (v <- feeds_get service ;;
     present <- lift (py_in (channel_id channel) v) ;;
     if negb present then
       friendly <- lift (getitem service FEED_FRIENDLY_NAMES) ;;
       emit (CtxSend (ReplyNotSending friendly (mention channel))) ;;
       ret None
     else
       match v with
       | SubList l => feeds_set service (SubList (list_remove (channel_id channel) l))
       | SubInt _ => raise AttributeError
       end ;;
       ret (Some (Some channel)))
    (fun e => match e with
              | TypeError =>
                  Some (v <- feeds_get service ;;
                        match v with
                        | SubInt c =>
                            feeds_set service (SubList []) ;;
                            ret (Some (bot_get_channel env c))
                        | SubList _ => raise TypeError
                        end)
              | _ => None
              end) ;;
  match removed with
  | None => ret tt
  | Some channel =>
      friendly <- lift (getitem service FEED_FRIENDLY_NAMES) ;;
      m <- lift (get_mention channel) ;;
      emit (CtxSend (ReplyRemoved friendly m))
  end.

(** [statusset remove]: stop status updates for a specific service in this
    server. *)
Definition statusset_remove (ctx_guild : Z) (service : string) (channel : channel) : M unit :=
  if negb (bool_decide (service ∈ keys FEED_URLS)) then emit (CtxSend ReplyInvalidService)
  else with_guild_feeds ctx_guild (statusset_remove_block service channel).

End Cog.

(** ** Sample data *)

Definition sample_fields : list field :=
  [ {| name := "Resolved - 12:40"; value := "This incident has been resolved." |};
    {| name := "Investigating - 12:05"; value := "We are investigating elevated error rates." |} ].

Definition sample_update (fs : list field) (published : Z) : feeddict :=
  {| fields := fs; time := PyDatetime {| micros := published |};
     title := "API errors - Discord Status Update";
     desc := "Incident page: https://discordstatus.com/incidents/1";
     friendlyname := "Discord"; colour := 7506394 |}.

Definition sample_channel (id : Z) : channel :=
  {| channel_id := id; guild_id := 100; mention := "<#" ++ pretty id ++ ">";
     can_send_messages := true; can_embed_links := true |}.

Definition empty_state : state :=
  {| cfg_etags := ∅; cfg_feed_store := ∅; cfg_guilds := []; etags := ∅;
     feeds := ∅; heap := ∅; trace := [] |}.

(** A state holding one candidate dictionary at reference [0]. *)
Definition state_with (fd : feeddict) : state := with_heap {[ 0%nat := fd ]} empty_state.

(** One guild, [100], whose ["discord"] entry lists [channels]. *)
Definition subscribed (channels : list Z) (s : state) : state :=
  with_cfg_guilds [ (100, {[ "discord" := SubList channels ]}) ] s.

(** Collaborators that answer every fetch with status 200 and the sample
    update, resolve every channel id but [2], which is no channel any
    more, and deliver every message. *)
Definition sample_env : Env :=
  {| feedparser_parse := fun _ _ =>
       Return {| status := Some 200; etag := Some "W/1"; body := "" |};
     helper_process_feed := fun _ _ =>
       Return (sample_update sample_fields 1609850000000000);
     bot_get_channel := fun id =>
       if decide (id = 2) then None else Some (sample_channel id);
     bot_embed_requested := fun _ => Return true;
     embed_rejects_timestamp := fun _ => false;
     channel_send := fun _ _ => Return tt;
     re_sub_urls := fun msg => msg |}.

(** The same, but [rsshelper] cannot take the feed of ["discord"] apart:
    the document has no entry. *)
Definition malformed_env : Env :=
  {| feedparser_parse := feedparser_parse sample_env;
     helper_process_feed := fun service response =>
       if decide (service = "discord") then Raise IndexError
       else helper_process_feed sample_env service response;
     bot_get_channel := bot_get_channel sample_env;
     bot_embed_requested := bot_embed_requested sample_env;
     embed_rejects_timestamp := embed_rejects_timestamp sample_env;
     channel_send := channel_send sample_env;
     re_sub_urls := re_sub_urls sample_env |}.

(** The same, but every fetch is answered with status 404. *)
Definition not_found_env : Env :=
  {| feedparser_parse := fun _ _ =>
       Return {| status := Some 404; etag := None; body := "" |};
     helper_process_feed := helper_process_feed sample_env;
     bot_get_channel := bot_get_channel sample_env;
     bot_embed_requested := bot_embed_requested sample_env;
     embed_rejects_timestamp := embed_rejects_timestamp sample_env;
     channel_send := channel_send sample_env;
     re_sub_urls := re_sub_urls sample_env |}.

(** ** Notions used in the statements *)

(** The channel ids a trace shows a delivered message for. *)
Fixpoint delivered_to (tr : list event) : list Z :=
  match tr with
  | [] => []
  | ChannelSend c _ None :: tr' => channel_id c :: delivered_to tr'
  | _ :: tr' => delivered_to tr'
  end.


(** The value [check_real_update] binds to [old_fields], and the states it
    leaves after its two log lines and after an accepted update. *)
Definition old_fields_of (s : state) (service : string) : pyvalue :=
  match cfg_feed_store s !! service with
  | Some stored => PyList (fields stored)
  | None => PyStr "hello"
  end.

Definition logged_fields (s : state) (service : string) (fd : feeddict) : state :=
  with_trace ((trace s ++ [Log DEBUG (LogOldFields (old_fields_of s service))])
                ++ [Log DEBUG (LogNewFields (PyList (fields fd)))]) s.

Definition accepted_state (s : state) (service : string) (r : nat) (fd : feeddict)
    (d : datetime) : state :=
  let fd' := set_time (PyFloat (timestamp d)) fd in
  let store' := <[service := fd']> (cfg_feed_store s) in
  let s1 := with_heap (<[r := fd']> (heap s)) (logged_fields s service fd) in
  with_trace (trace s1 ++ [SetFeedStore store']) (with_cfg_feed_store store' s1).


Definition is_send (e : event) : bool :=
  match e with
  | ChannelSend _ _ _ => true
  | _ => false
  end.

(** [s'] is [s] with events appended to its trace, all of them in [P];
    nothing else differs. *)
Definition appends (P : event -> Prop) (s s' : state) : Prop :=
  exists new, s' = with_trace (trace s ++ new) s /\ Forall P new.

(** The events of a fan-out that reads a record whose ["time"] is [t]:
    log lines and sends, and [t] is the only time they can carry. *)
Definition fan_out_event (t : time_value) (e : event) : Prop :=
  match e with
  | Log _ (LogTimestampError t') => t' = t
  | Log _ (LogFeedDict _ fd) => time fd = t
  | Log _ _ => True
  | ChannelSend _ (MsgEmbed em) _ =>
      embed_timestamp em = Some t \/ embed_timestamp em = None
  | ChannelSend _ (MsgText _) _ => True
  | _ => False
  end.

(** The destinations one guild holds for a service, as [get_channels]
    reads them. *)
Definition destinations (service : string) (server : Z * gmap string subscription) : list Z :=
  match server.2 !! service with
  | Some (SubList l) => l
  | Some (SubInt c) => [c]
  | None => []
  end.

(** Every list a guild stores is free of duplicates. *)
Definition duplicate_free (s : state) (guild : Z) : Prop :=
  forall service l, guild_feeds s guild !! service = Some (SubList l) -> NoDup l.

(** The same channel, [5], subscribed to ["github"] in two guilds. *)
Definition two_guilds : state :=
  with_cfg_guilds [ (100, {[ "github" := SubList [5] ]});
                    (200, {[ "github" := SubList [5] ]}) ] empty_state.

(** A guild whose ["github"] entry is still the single channel id [5]. *)
Definition legacy_guild : state :=
  with_cfg_guilds [ (100, {[ "github" := SubInt 5 ]}) ] empty_state.

(** ** Notions used in the further properties *)

(** The lines one field takes in a message sent as plain text. *)
Definition text_block (f : field) : string :=
  "**" ++ name f ++ "**" ++ nl ++ value f ++ nl.

(** The embed [send_updated_feed] builds from a feed dictionary. *)
Definition embed_of (env : Env) (fd : feeddict) : embed :=
  {| embed_title := title fd;
     embed_description := desc fd;
     embed_timestamp :=
       if embed_rejects_timestamp env (time fd) then None else Some (time fd);
     embed_colour := colour fd;
     embed_fields := reverse (fields fd) |}.

(** The text [send_updated_feed] builds where no embed is requested. *)
Definition text_of (env : Env) (fd : feeddict) : string :=
  re_sub_urls env
    ("**" ++ title fd ++ "**" ++ nl ++ desc fd ++ nl ++ nl
     ++ String.concat "" (text_block <$> reverse (fields fd))).

(** The warning logged when [discord.Embed] refuses the timestamp. *)
Definition timestamp_warning (env : Env) (fd : feeddict) : list event :=
  if embed_rejects_timestamp env (time fd)
  then [Log WARNING (LogTimestampError (time fd))]
  else [].

(** The message for a channel: an embed where one is requested, the text
    otherwise. *)
Definition message_of (env : Env) (fd : feeddict) (requested : bool) : message :=
  if requested then MsgEmbed (embed_of env fd) else MsgText (text_of env fd).

(** The clauses [except (Forbidden, AttributeError)] of [send_updated_feed]. *)
Definition caught_on_send (e : exn) : bool :=
  match e with
  | Forbidden | AttributeError => true
  | _ => false
  end.

(** Whether the channel id resolves and the message for it is delivered. *)
Definition delivers (env : Env) (fd : feeddict) (c : Z) : bool :=
  match bot_get_channel env c with
  | Some ch =>
      match bot_embed_requested env (Some ch) with
      | Return requested =>
          match channel_send env ch (message_of env fd requested) with
          | Return _ => true
          | Raise _ => false
          end
      | Raise _ => false
      end
  | None => false
  end.

(** The channel id resolves to a channel of that id, and sending to it
    succeeds or fails with an exception [send_updated_feed] catches. *)
Definition send_contained (env : Env) (fd : feeddict) (c : Z) : Prop :=
  exists ch requested,
    bot_get_channel env c = Some ch
    /\ channel_id ch = c
    /\ bot_embed_requested env (Some ch) = Return requested
    /\ match channel_send env ch (message_of env fd requested) with
       | Return _ => True
       | Raise e => caught_on_send e = true
       end.

(** The feed has a stored etag, and the fetch with it is answered with a
    status other than 200 (304, when the feed has not changed). *)
Definition not_modified (env : Env) (tags : gmap string string) (feed : string * string) : Prop :=
  exists tag response code,
    tags !! feed.1 = Some tag
    /\ feedparser_parse env feed.2 (Some tag) = Return response
    /\ status response = Some code
    /\ code <> 200.

(** Collaborators that answer every fetch with status 304. *)
Definition not_modified_env : Env :=
  {| feedparser_parse := fun _ _ =>
       Return {| status := Some 304; etag := None; body := "" |};
     helper_process_feed := helper_process_feed sample_env;
     bot_get_channel := bot_get_channel sample_env;
     bot_embed_requested := bot_embed_requested sample_env;
     embed_rejects_timestamp := embed_rejects_timestamp sample_env;
     channel_send := channel_send sample_env;
     re_sub_urls := re_sub_urls sample_env |}.

(** A configuration with an etag stored for every service. *)
Definition polled_state : state :=
  with_cfg_etags (list_to_map ((fun feed => (feed.1, "W/1")) <$> FEED_URLS)) empty_state.

(** ** The feed parser of [devcheckfeed]

    The block of [devcheckfeed] between [standard below] and
    [end standard]: it takes the text of the newest entry apart into the
    fields of a feed dictionary. *)

(** [s[n:]] *)
Fixpoint string_drop (n : nat) (s : string) : string :=
  match n, s with
  | O, _ => s
  | S _, EmptyString => EmptyString
  | S n', String _ s' => string_drop n' s'
  end.

(** [s.partition(sep)], for a separator that is not empty: the text before
    the first occurrence of [sep] and the text after it, [None] when [sep]
    does not occur. *)
Fixpoint partition (sep s : string) : option (string * string) :=
  match s with
  | EmptyString => None
  | String c s' =>
      if String.prefix sep s then Some (EmptyString, string_drop (String.length sep) s)
      else match partition sep s' with
           | Some (before, after) => Some (String c before, after)
           | None => None
           end
  end.

(** [sub in s] *)
Definition contains (sub s : string) : bool :=
  match partition sub s with
  | Some _ => true
  | None => false
  end.

(** [s.split(sep, maxsplit)]: at most [maxsplit] splits, from the left. *)
Fixpoint split_at_most (maxsplit : nat) (sep s : string) : list string :=
  match maxsplit with
  | O => [s]
  | S n =>
      match partition sep s with
      | Some (before, after) => before :: split_at_most n sep after
      | None => [s]
      end
  end.

(** [s.split(sep)]: a string has no more occurrences of a separator than
    characters. *)
Definition split (sep s : string) : list string :=
  split_at_most (String.length s) sep s.

(** [l[i]] *)
Definition list_getitem (l : list string) (i : nat) : outcome string :=
  match l !! i with
  | Some x => Return x
  | None => Raise IndexError
  end.

Definition outcome_bind {A B} (o : outcome A) (k : A -> outcome B) : outcome B :=
  match o with
  | Return a => k a
  | Raise e => Raise e
  end.

(** The [try] block of the loop over the sections; [None] for the empty
    section, which adds no field. *)
Definition parse_section (data : string) : outcome (option field) :=
  if decide (data = "") then Return None
  else
    let current := split_at_most 1 " - " data in
    outcome_bind (list_getitem current 1) (fun content =>
    outcome_bind (list_getitem current 0) (fun head =>
    let tt := split nl head in
    outcome_bind (list_getitem tt 0) (fun time =>
    outcome_bind (list_getitem tt 1) (fun title =>
    Return (Some {| name := title ++ " - " ++ time; value := content |}))))).

(** The field that stands for a section the block could not take apart. *)
Definition section_error (data : string) : field :=
  {| name := "Something went wrong with this section";
     value := "I couldn't turn it into the embed properly. Here's the raw data:"
              ++ nl ++ "```" ++ data ++ "```" |}.

(** The loop over the sections.  [fields] is [parseddict["fields"]];
    [warnings] counts the calls of [log.warning], whose text is the same
    for every section but for the time of day. *)
Fixpoint parse_sections (sections : list string) (fields : list field) (warnings : nat)
    : outcome (list field * nat) :=
  match sections with
  | [] => Return (fields, warnings)
  | data :: rest =>
      match parse_section data with
      | Return (Some f) => parse_sections rest (fields ++ [f]) warnings
      | Return None => parse_sections rest fields warnings
      | Raise IndexError => parse_sections rest (fields ++ [section_error data]) (S warnings)
      | Raise e => Raise e
      end
  end.

(** The fields of the stripped content of an entry. *)
Definition standard_fields (strippedcontent : string) : outcome (list field * nat) :=
  parse_sections (split "=-=SPLIT=-=" strippedcontent) [] 0.

(** A section as the feeds write it: the time on a line of its own, then
    the title, [" - "], and the text. *)
Definition section_of (time title content : string) : string :=
  time ++ nl ++ title ++ " - " ++ content.

(** ** The developer commands and [statusset list]

    What these commands take from Red besides the bot: the text helpers of
    [redbot.core.utils.chat_formatting], [tabulate], and the name of a
    channel. *)
Record Chat := {
  (** [warning(text)] *)
  chat_warning : string -> string;
  (** [humanize_list(items)], for a list that is not empty *)
  humanize_list : list string -> string;
  (** [box(tabulate(data, tablefmt="plain"), lang="arduino")] *)
  box_tabulate : list (string * string) -> string;
  (** [channel.name] *)
  channel_name : channel -> string
}.

(** The invocation of a command: the channel it was typed in and its
    author. *)
Record context := {
  ctx_channel : channel;
  ctx_author : Z
}.

(** [await ctx.send(text)]: a message to the channel of the invocation. *)
Definition ctx_send (ctx : context) (text : string) : M unit :=
  emit (ChannelSend (ctx_channel ctx) (MsgText text) None).

Definition DEV_WARNING : string :=
  nl ++ "THIS COMMNAD IS INTENDED FOR DEVELOPMENT PURPOSES ONLY." ++ nl ++ nl
  ++ "Unintended things are likely to" ++ "happen." ++ nl ++ nl
  ++ "Repeat: THIS COMMAND IS NOT SUPPORTED." ++ nl
  ++ "Are you sure you want to continue?".

Section DevCommands.

Variable env : Env.
Variable chat : Chat.

(** Returns whether to continue or not.  [confirmed] is whether the
    author answered the warning with the reaction for yes. *)
Definition dev_com (ctx : context) (confirmed : bool) : M bool :=
  if negb (ctx_author ctx =? 418078199982063626)%Z then
    ctx_send ctx (chat_warning chat DEV_WARNING) ;;
    if negb confirmed then ctx_send ctx "Aborting." ;; ret false
    else ret true
  else ret true.

(** [str(real)] *)
Definition py_str_bool (b : bool) : string := if b then "True" else "False".

(** [devforcestatus]: send the current status of the service to all the
    channels subscribed to it. *)
Definition devforcestatus (ctx : context) (confirmed : bool) (service : string) : M unit :=
  continue <- dev_com ctx confirmed ;;
  if negb continue then ret tt
  else if negb (bool_decide (service ∈ keys FEED_URLS)) then
    ctx_send ctx "Hmm, that doesn't look like a valid service."
  else
    url <- lift (getitem service FEED_URLS) ;;
    feed <- lift (feedparser_parse env url None) ;;
    feeddict <- process_feed env service feed ;;
    real <- check_real_update service feeddict ;;
    ctx_send ctx ("Real update: " ++ py_str_bool real) ;;
    to_send <- get_channels service ;;
    for_each to_send (fun channel => send_updated_feed env feeddict channel).

(** [not v], for what a guild stores under a service. *)
Definition falsy (v : subscription) : bool :=
  match v with
  | SubInt c => (c =? 0)%Z
  | SubList l => bool_decide (l = [])
  end.

(** The names of the channels of one service, each behind a [#]; an id
    that resolves to no channel has no [name]. *)
Fixpoint channel_names (channel_ids : list Z) : outcome (list string) :=
  match channel_ids with
  | [] => Return []
  | channel :: rest =>
      match bot_get_channel env channel with
      | None => Raise AttributeError
      | Some ch =>
          outcome_bind (channel_names rest) (fun names =>
          Return (("#" ++ channel_name chat ch) :: names))
      end
  end.

(** [pos_feeds.remove(x)] inside [try: ... except Exception: pass]. *)
Fixpoint remove_first (x : string) (l : list string) : list string :=
  match l with
  | [] => []
  | y :: l' => if decide (x = y) then l' else y :: remove_first x l'
  end.

(** The loop of [statusset list] over [guild_feeds.items()]: [data] are
    the rows of the table, [pos_feeds] the services not used so far. *)
Fixpoint list_rows (items : list (string * subscription)) (data : list (string * string))
    (pos_feeds : list string) : outcome (list (string * string) * list string) :=
  match items with
  | [] => Return (data, pos_feeds)
  | feed :: rest =>
      if falsy feed.2 then list_rows rest data pos_feeds
      else
        let channel_ids :=
          match feed.2 with
          | SubInt c => [c]
          | SubList l => l
          end in
        outcome_bind (channel_names channel_ids) (fun names =>
        list_rows rest (data ++ [(feed.1, humanize_list chat names)])
          (remove_first feed.1 pos_feeds))
  end.

(** The message of [statusset list].  [guild_feeds] is the dictionary of
    the guild, as the list of its items. *)
Definition statusset_list_message (guild_feeds : list (string * subscription))
    : outcome string :=
  outcome_bind
    (match guild_feeds with
     | [] =>
         Return ("There are no status updates set up in this server." ++ nl,
                 keys FEED_URLS)
     | _ =>
         outcome_bind (list_rows guild_feeds [] (keys FEED_URLS)) (fun '(data, pos_feeds) =>
         Return (match data with
                 | [] => ""
                 | _ => "**Services used in this server:**" ++ box_tabulate chat data
                 end, pos_feeds))
     end)
    (fun '(msg, pos_feeds) =>
       Return (match pos_feeds with
               | [] => msg
               | _ => msg ++ "**Other available services:** " ++ humanize_list chat pos_feeds
               end)).

(** [statusset list]: list the available services and which ones are
    being used in this server. *)
Definition statusset_list (ctx : context) (guild_feeds : list (string * subscription))
    : M unit :=
  msg <- lift (statusset_list_message guild_feeds) ;;
  ctx_send ctx msg.

End DevCommands.

(** The ids of the channels a guild lists under services with an entry
    that is not empty. *)
Definition listed_ids (items : list (string * subscription)) : list Z :=
  List.concat ((fun feed : string * subscription =>
                  if falsy feed.2 then []
                  else match feed.2 with SubInt c => [c] | SubList l => l end) <$> items).

(** Text helpers for the samples. *)
Definition sample_chat : Chat :=
  {| chat_warning := fun text => "Warning: " ++ text;
     humanize_list := fun items => String.concat ", " items;
     box_tabulate := fun data =>
       String.concat nl ((fun row => row.1 ++ "  " ++ row.2) <$> data);
     channel_name := fun ch => pretty (channel_id ch) |}.

(** An invocation by the author of the cog in channel [9]. *)
Definition sample_context : context :=
  {| ctx_channel := sample_channel 9; ctx_author := 418078199982063626 |}.

(** ** The migration of [core/status.py]

    [_migrate_to_v3] rewrites the [feeds] dictionary of every channel: it
    drops the services that are gone and gives every other service an
    empty [edit_id] dictionary.  The settings of a service are a
    dictionary whose values the migration does not look at; [value] is
    their type and [empty_dict] the value [{}]. *)
Section Migration.

Variable value : Type.
Variable empty_dict : value.

Definition REMOVED_SERVICES : list string :=
  [ "twitter"; "status.io"; "aws"; "gcp"; "smartthings" ].

(** The body of the loop over the services of one channel. *)
Definition migrate_service (c_old : gmap string (gmap string value)) (service : string)
    : gmap string (gmap string value) :=
  if bool_decide (service ∈ REMOVED_SERVICES) then delete service c_old
  else alter (fun settings => <["edit_id" := empty_dict]> settings) service c_old.

(** The body of the loop over the channels: [c_old] starts as a copy of
    the channel's [feeds] and is changed service by service, over the keys
    of the original. *)
Definition migrate_feeds (data : gmap string (gmap string value))
    : gmap string (gmap string value) :=
  fold_left migrate_service (map_to_list data).*1 data.

(** The migration stores the new [feeds] of every channel under the id of
    the channel. *)
Definition _migrate_to_v3 (really_old : gmap Z (gmap string (gmap string value)))
    : gmap Z (gmap string (gmap string value)) :=
  migrate_feeds <$> really_old.

End Migration.

(** Collaborators like [sample_env], but channel [3] refuses the message
    ([Forbidden]) and no embeds are requested in channel [4]. *)
Definition refusing_env : Env :=
  {| feedparser_parse := feedparser_parse sample_env;
     helper_process_feed := helper_process_feed sample_env;
     bot_get_channel := bot_get_channel sample_env;
     bot_embed_requested := fun ch =>
       match ch with
       | Some c => Return (negb (channel_id c =? 4)%Z)
       | None => Raise AttributeError
       end;
     embed_rejects_timestamp := embed_rejects_timestamp sample_env;
     channel_send := fun c _ =>
       if (channel_id c =? 3)%Z then Raise Forbidden else Return tt;
     re_sub_urls := re_sub_urls sample_env |}.

(** ** The first run of [core/status.py]

    [_get_initial_data] asks the status API for the incidents and the
    scheduled maintenances of every service and stores the ids it finds as
    already seen.  [statusapi] and the table [FEEDS] are modules of the
    cog; a key that a dictionary lacks is a [None]. *)

(** An incident as the API returns it: [inc["id"]] and the ["id"] of each
    of [inc["incident_updates"]]. *)
Record incident := {
  incident_id : option string;
  incident_updates : option (list (option string))
}.

(** What awaiting a call of the API comes to: the call returns the list
    under ["incidents"] (or ["scheduled_maintenances"]) of its answer and
    the HTTP status; or it raises an exception of a class under
    [Exception], which [except Exception] catches; or the coroutine is
    left by an exception that is no [Exception] ([asyncio.CancelledError],
    [KeyboardInterrupt], ...), which [except Exception] does not catch. *)
Inductive api_answer :=
| ApiReturn (incs : option (list incident)) (status : Z)
| ApiRaise (e : exn)
| ApiEscape (name : string).

(** The two calls, for the id of a service. *)
Record StatusAPI := {
  statusapi_incidents : string -> api_answer;
  statusapi_scheduled_maintenance : string -> api_answer
}.

Inductive initial_log :=
| InitStarting (service : string)
| InitBadStatus (service : string) (status : Z)
| InitUnable (service : string).

(** [[i["id"] for i in updates]]: [None] when an update has no id. *)
Fixpoint update_ids (updates : list (option string)) : option (list string) :=
  match updates with
  | [] => Some []
  | u :: rest =>
      match u, update_ids rest with
      | Some id, Some ids => Some (id :: ids)
      | _, _ => None
      end
  end.

(** The loop [for inc in incs]; [false] when a [KeyError] ended it.  What
    was appended before stays appended. *)
Fixpoint append_ids (incs : list incident) (old_ids : list string) : bool * list string :=
  match incs with
  | [] => (true, old_ids)
  | inc :: rest =>
      match incident_id inc with
      | None => (false, old_ids)
      | Some id =>
          match incident_updates inc with
          | None => (false, (old_ids ++ [id])%list)
          | Some updates =>
              match update_ids updates with
              | None => (false, (old_ids ++ [id])%list)
              | Some ids => append_ids rest ((old_ids ++ [id]) ++ ids)%list
              end
          end
      end
  end.

(** How a [try] block with its [except Exception] clause ends: the block
    ran to its end; an exception was caught, and the clause goes on to
    the next service; or an exception that is no [Exception] left it. *)
Inductive block_end :=
| BlockDone
| BlockCaught
| BlockEscaped (name : string).

(** One [try] block with its [except Exception] clause: how it ends, the
    ids and the log. *)
Definition try_collect (service : string) (answer : api_answer)
    (old_ids : list string) (logged : list initial_log)
    : block_end * list string * list initial_log :=
  match answer with
  | ApiEscape name => (BlockEscaped name, old_ids, logged)
  | ApiRaise _ => (BlockCaught, old_ids, (logged ++ [InitUnable service])%list)
  | ApiReturn incs status =>
      let logged :=
        if (status =? 200)%Z then logged
        else (logged ++ [InitBadStatus service status])%list in
      match incs with
      | None => (BlockCaught, old_ids, (logged ++ [InitUnable service])%list)
      | Some incs =>
          let '(ok, old_ids) := append_ids incs old_ids in
          if ok then (BlockDone, old_ids, logged)
          else (BlockCaught, old_ids, (logged ++ [InitUnable service])%list)
      end
  end.

(** What [_get_initial_data] comes to: it stores [old_ids], or it is left
    by an exception before it stores anything. *)
Inductive initial_data :=
| Stored (old_ids : list string) (logged : list initial_log)
| Escaped (name : string) (logged : list initial_log).

Section InitialData.

Variable statusapi : StatusAPI.

(** The body of the loop over the services. *)
Definition collect_service (feed : string * string) (old_ids : list string)
    (logged : list initial_log) : block_end * list string * list initial_log :=
  let logged := (logged ++ [InitStarting feed.1])%list in
  let '(ended, old_ids, logged) :=
    try_collect feed.1 (statusapi_incidents statusapi feed.2) old_ids logged in
  match ended with
  | BlockDone =>
      try_collect feed.1 (statusapi_scheduled_maintenance statusapi feed.2) old_ids logged
  | _ => (ended, old_ids, logged)
  end.

(** The loop over [FEEDS.items()], each service with its
    [settings["id"]], and the [old_ids.set(old_ids)] after it. *)
Fixpoint collect_services (feeds : list (string * string)) (old_ids : list string)
    (logged : list initial_log) : initial_data :=
  match feeds with
  | [] => Stored old_ids logged
  | feed :: rest =>
      match collect_service feed old_ids logged with
      | (BlockEscaped name, _, logged) => Escaped name logged
      | (_, old_ids, logged) => collect_services rest old_ids logged
      end
  end.

(** Start with initial data. *)
Definition _get_initial_data (FEEDS : list (string * string)) : initial_data :=
  collect_services FEEDS [] [].

End InitialData.

(** The ids of a list of incidents, each followed by those of its
    updates; [None] when an id is missing. *)
Fixpoint all_ids (incs : list incident) : option (list string) :=
  match incs with
  | [] => Some []
  | inc :: rest =>
      match incident_id inc, incident_updates inc ≫= update_ids, all_ids rest with
      | Some id, Some ids, Some more => Some ((id :: ids) ++ more)%list
      | _, _, _ => None
      end
  end.

(** The ids of a service whose two calls are answered in full. *)
Definition service_ids (statusapi : StatusAPI) (feed : string * string) : option (list string) :=
  match statusapi_incidents statusapi feed.2,
        statusapi_scheduled_maintenance statusapi feed.2 with
  | ApiReturn (Some incs) _, ApiReturn (Some scheduled) _ =>
      match all_ids incs, all_ids scheduled with
      | Some ids, Some more => Some (ids ++ more)%list
      | _, _ => None
      end
  | _, _ => None
  end.

(** The warning for an answer whose status is not 200. *)
Definition status_warning (service : string) (answer : api_answer) : list initial_log :=
  match answer with
  | ApiReturn _ status =>
      if (status =? 200)%Z then [] else [InitBadStatus service status]
  | _ => []
  end.

(** What is logged for a service whose two calls are answered in full. *)
Definition service_log (statusapi : StatusAPI) (feed : string * string) : list initial_log :=
  (InitStarting feed.1
   :: status_warning feed.1 (statusapi_incidents statusapi feed.2)
   ++ status_warning feed.1 (statusapi_scheduled_maintenance statusapi feed.2))%list.

(** An API that knows one incident with two updates per service and no
    maintenance, and answers the incidents with status 203. *)
Definition sample_statusapi : StatusAPI :=
  {| statusapi_incidents := fun id =>
       ApiReturn (Some [ {| incident_id := Some (id ++ "-1");
                            incident_updates := Some [Some (id ++ "-1a"); Some (id ++ "-1b")] |} ])
                 203;
     statusapi_scheduled_maintenance := fun _ => ApiReturn (Some []) 200 |}.

(** The same API, but the task is cancelled while it waits for the
    incidents of the service [b]. *)
Definition cancelled_statusapi : StatusAPI :=
  {| statusapi_incidents := fun id =>
       if decide (id = "b") then ApiEscape "CancelledError"
       else statusapi_incidents sample_statusapi id;
     statusapi_scheduled_maintenance := statusapi_scheduled_maintenance sample_statusapi |}.

(** ** ChangeDetector *)

Section ChangeDetector.

Implicit Types (service : string) (r : nat) (fd : feeddict) (s : state).

(** [check_real_update], run on a state that holds the candidate. *)
Lemma check_real_update_run service r fd s :
  heap s !! r = Some fd ->
  check_real_update service r s =
    if py_eq (old_fields_of s service) (PyList (fields fd))
    then (Return false, logged_fields s service fd)
    else match time fd with
         | PyDatetime d => (Return true, accepted_state s service r fd d)
         | PyFloat _ => (Raise AttributeError, logged_fields s service fd)
         end.
Proof.
  intros Hr.
  unfold check_real_update, bind, get_state, deref, log, emit, ret, lift.
  cbn. rewrite Hr. cbn. fold (old_fields_of s service).
  destruct (py_eq _ _); [reflexivity|].
  destruct (time fd) as [d|f]; cbn; [|reflexivity].
  unfold assign_time. cbn. rewrite Hr. cbn.
  rewrite lookup_insert_eq. reflexivity.
Qed.

Lemma py_eq_stored s service fd :
  py_eq (old_fields_of s service) (PyList (fields fd))
  = bool_decide (fields <$> cfg_feed_store s !! service = Some (fields fd)).
Proof.
  unfold old_fields_of.
  destruct (cfg_feed_store s !! service) as [st|]; cbn.
  - apply bool_decide_ext. split; congruence.
  - symmetry. apply bool_decide_eq_false. discriminate.
Qed.

Lemma old_fields_after_accept s service r fd d :
  old_fields_of (accepted_state s service r fd d) service = PyList (fields fd).
Proof. unfold old_fields_of, accepted_state. cbn. rewrite lookup_insert_eq. reflexivity. Qed.

Lemma old_fields_after_log s service fd :
  old_fields_of (logged_fields s service fd) service = old_fields_of s service.
Proof. reflexivity. Qed.

Lemma py_eq_fields_refl (l : list field) : py_eq (PyList l) (PyList l) = true.
Proof. cbn. apply bool_decide_eq_true. reflexivity. Qed.

Lemma py_eq_fields_true (v : pyvalue) (l : list field) :
  py_eq v (PyList l) = true -> v = PyList l.
Proof.
  destruct v as [x|l']; cbn; [discriminate|].
  intros H. apply bool_decide_eq_true in H. congruence.
Qed.

(** C1: the decision of [check_real_update] is the order-sensitive
    comparison of the candidate's field list with the stored one, and
    nothing else: the candidate is a ghost exactly when the stored list
    equals its own.  Hence the same fields evaluated again, under whatever
    timestamp, are a ghost, and so is a candidate that differs from the
    stored record in its time only. *)
Theorem check_real_update_compares_fields_only service r fd d s :
  heap s !! r = Some fd ->
  time fd = PyDatetime d ->
  let '(decision, s1) := check_real_update service r s in
  decision
    = Return (negb (bool_decide (fields <$> cfg_feed_store s !! service = Some (fields fd))))
  /\ (forall r2 fd2,
        heap s1 !! r2 = Some fd2 -> fields fd2 = fields fd ->
        (check_real_update service r2 s1).1 = Return false)
  /\ (forall stored t,
        cfg_feed_store s !! service = Some stored -> fd = set_time t stored ->
        decision = Return false).
Proof.
  intros Hr Ht.
  rewrite (check_real_update_run _ _ _ _ Hr), Ht.
  pose proof (py_eq_stored s service fd) as Heq.
  destruct (py_eq (old_fields_of s service) (PyList (fields fd))) eqn:Hcmp.
  - rewrite <- Heq. split; [reflexivity|]. split.
    + intros r2 fd2 Hr2 Hf.
      rewrite (check_real_update_run _ _ _ _ Hr2), Hf.
      rewrite old_fields_after_log, Hcmp. reflexivity.
    + reflexivity.
  - rewrite <- Heq. split; [reflexivity|]. split.
    + intros r2 fd2 Hr2 Hf.
      rewrite (check_real_update_run _ _ _ _ Hr2), Hf.
      rewrite old_fields_after_accept, py_eq_fields_refl. reflexivity.
    + intros stored t Hst ->. exfalso.
      unfold old_fields_of in Hcmp. rewrite Hst in Hcmp. cbn in Hcmp.
      apply bool_decide_eq_false in Hcmp. congruence.
Qed.

(** The same update fed twice to an empty store: accepted, then a ghost. *)
Lemma check_real_update_compares_fields_only_witness :
  let '(decision, s1) :=
    check_real_update "discord" 0
      (state_with (sample_update sample_fields 1609850000000000)) in
  decision = Return true /\ (check_real_update "discord" 0 s1).1 = Return false.
Proof.
  pose proof (check_real_update_compares_fields_only "discord" 0
                (sample_update sample_fields 1609850000000000)
                {| micros := 1609850000000000 |}
                (state_with (sample_update sample_fields 1609850000000000))
                eq_refl eq_refl) as H.
  destruct (check_real_update "discord" 0 _) as [decision s1] eqn:E.
  destruct H as (Hd & Hagain & _). split.
  - rewrite Hd. vm_compute. reflexivity.
  - apply (Hagain 0%nat (set_time (PyFloat (timestamp {| micros := 1609850000000000 |}))
                          (sample_update sample_fields 1609850000000000))).
    + vm_compute in E. injection E as _ <-. vm_compute. reflexivity.
    + reflexivity.
Defined.

(** C2: with nothing stored for the service, every candidate is accepted,
    whatever its fields, the empty list included: [old_fields] is then the
    string ["hello"], which no list equals. *)
Theorem check_real_update_first_poll service r fd d s :
  cfg_feed_store s !! service = None ->
  heap s !! r = Some fd ->
  time fd = PyDatetime d ->
  old_fields_of s service = PyStr "hello"
  /\ py_eq (PyStr "hello") (PyList []) = false
  /\ (check_real_update service r s).1 = Return true.
Proof.
  intros Hnone Hr Ht.
  rewrite (check_real_update_run _ _ _ _ Hr), Ht.
  unfold old_fields_of. rewrite Hnone. auto.
Qed.

(** A first poll that brings an update without fields. *)
Lemma check_real_update_first_poll_witness :
  old_fields_of (state_with (sample_update [] 1609850000000000)) "github" = PyStr "hello"
  /\ py_eq (PyStr "hello") (PyList []) = false
  /\ (check_real_update "github" 0 (state_with (sample_update [] 1609850000000000))).1
     = Return true.
Proof.
  apply (check_real_update_first_poll "github" 0 (sample_update [] 1609850000000000)
           {| micros := 1609850000000000 |}); reflexivity.
Defined.

(** The comparison is sensitive to the order of the fields: the stored
    fields in reverse order are a new update. *)
Example check_real_update_reversed_fields :
  let '(_, s1) :=
    check_real_update "discord" 0
      (state_with (sample_update sample_fields 1609850000000000)) in
  (check_real_update "discord" 1
     (with_heap (<[1%nat := sample_update (reverse sample_fields) 1609850000000000]>
                   (heap s1)) s1)).1
  = Return true.
Proof. vm_compute. reflexivity. Qed.

(** The same fields under a later time are a ghost. *)
Example check_real_update_later_time :
  let '(_, s1) :=
    check_real_update "discord" 0
      (state_with (sample_update sample_fields 1609850000000000)) in
  (check_real_update "discord" 1
     (with_heap (<[1%nat := sample_update sample_fields 1609850180000000]>
                   (heap s1)) s1)).1
  = Return false.
Proof. vm_compute. reflexivity. Qed.

End ChangeDetector.

(** ** Effects confined to the trace *)

Section Appends.

Context (P : event -> Prop).

Lemma with_trace_id (s : state) : with_trace (trace s) s = s.
Proof. destruct s; reflexivity. Qed.

Lemma with_trace_twice (s : state) (t t' : list event) :
  with_trace t' (with_trace t s) = with_trace t' s.
Proof. reflexivity. Qed.

Lemma appends_refl (s : state) : appends P s s.
Proof. exists []. rewrite app_nil_r, with_trace_id. auto. Qed.

Lemma appends_trans (s1 s2 s3 : state) :
  appends P s1 s2 -> appends P s2 s3 -> appends P s1 s3.
Proof.
  intros (n1 & -> & H1) (n2 & -> & H2). exists (n1 ++ n2)%list. split.
  - cbn. rewrite app_assoc. reflexivity.
  - apply Forall_app; auto.
Qed.

Lemma appends_emit (e : event) (s : state) : P e -> appends P s (emit e s).2.
Proof. intros He. exists [e]. cbn. auto. Qed.

Lemma appends_bind {A B} (m : M A) (k : A -> M B) (s : state) :
  appends P s (m s).2 ->
  (forall a, (m s).1 = Return a -> appends P (m s).2 (k a (m s).2).2) ->
  appends P s (bind m k s).2.
Proof.
  unfold bind. destruct (m s) as [[a|e] s1]; cbn; intros H1 H2; [|exact H1].
  eapply appends_trans; [exact H1|]. apply H2. reflexivity.
Qed.

Lemma appends_try_except {A} (body : M A) (handler : exn -> option (M A)) (s : state) :
  appends P s (body s).2 ->
  (forall e h, (body s).1 = Raise e -> handler e = Some h ->
               appends P (body s).2 (h (body s).2).2) ->
  appends P s (try_except body handler s).2.
Proof.
  unfold try_except. destruct (body s) as [[a|e] s1]; cbn; intros H1 H2; [exact H1|].
  destruct (handler e) as [h|] eqn:Hh; [|exact H1].
  eapply appends_trans; [exact H1|]. apply (H2 e h); [reflexivity|exact Hh].
Qed.

Lemma appends_lift {A} (o : outcome A) (s : state) : appends P s (lift o s).2.
Proof. apply appends_refl. Qed.

Lemma appends_deref (r : nat) (s : state) : appends P s (deref r s).2.
Proof. unfold deref. destruct (heap s !! r); apply appends_refl. Qed.

Lemma appends_heap (s s' : state) : appends P s s' -> heap s' = heap s.
Proof. intros (n & -> & _). reflexivity. Qed.

Lemma appends_feed_store (s s' : state) :
  appends P s s' -> cfg_feed_store s' = cfg_feed_store s.
Proof. intros (n & -> & _). reflexivity. Qed.

Lemma appends_for_each {A} (body : A -> M unit) (l : list A) (s : state) :
  (forall x s', appends P s s' -> appends P s' (body x s').2) ->
  appends P s (for_each l body s).2.
Proof.
  revert s. induction l as [|x l IH]; intros s Hbody; cbn.
  - apply appends_refl.
  - apply appends_bind.
    + apply Hbody, appends_refl.
    + intros _ _. apply IH. intros y s' Hs'. apply Hbody.
      eapply appends_trans; [|exact Hs']. apply Hbody, appends_refl.
Qed.

End Appends.

(** ** Notifier and fan-out *)

Section FanOut.

Variable env : Env.

Implicit Types (service : string) (r : nat) (fd : feeddict) (s : state).

Ltac appended :=
  first
    [ apply appends_refl
    | eexists; split;
      [ unfold with_trace; cbn; rewrite <- ?app_assoc; reflexivity
      | repeat constructor; cbn; auto ] ].

Lemma guarded_send_appends (t : time_value) (ch : option channel) (m : message) s :
  fan_out_event t (ChannelSend (default (sample_channel 0) ch) m None) ->
  appends (fan_out_event t) s (guarded_send env ch m s).2.
Proof.
  intros Hm. unfold guarded_send, try_except, call_send, log_unable_to_send.
  destruct ch as [c|]; cbn.
  - destruct (channel_send env c m) as [[]|e]; cbn.
    + appended.
    + destruct e; cbn; appended.
  - appended.
Qed.

Lemma deref_run r fd s : heap s !! r = Some fd -> deref r s = (Return fd, s).
Proof. intros Hr. unfold deref. rewrite Hr. reflexivity. Qed.

Lemma add_fields_timestamp (l : list field) (em : embed) :
  embed_timestamp (fold_left add_field l em) = embed_timestamp em.
Proof.
  revert em. induction l as [|f l IH]; intros em; cbn; [reflexivity|].
  rewrite IH. reflexivity.
Qed.

Lemma send_updated_feed_appends r fd (c : Z) s :
  heap s !! r = Some fd ->
  appends (fan_out_event (time fd)) s (send_updated_feed env r c s).2.
Proof.
  intros Hr. unfold send_updated_feed.
  apply appends_bind; [apply appends_lift|]. intros requested _.
  change (lift (bot_embed_requested env (bot_get_channel env c)) s).2 with s.
  apply appends_bind; [apply appends_deref|]. intros fd'.
  rewrite (deref_run _ _ _ Hr). cbn [fst snd]. intros [= <-].
  destruct requested.
  - apply appends_bind.
    + unfold try_except, lift, Embed. cbn.
      destruct (embed_rejects_timestamp env (time fd)); cbn; appended.
    + intros em Hem.
      apply guarded_send_appends. cbn. rewrite add_fields_timestamp.
      revert Hem. unfold try_except, lift, Embed. cbn.
      destruct (embed_rejects_timestamp env (time fd)); cbn; intros [= <-]; cbn; auto.
  - apply guarded_send_appends. exact I.
Qed.

Lemma fan_out_appends service r fd s :
  heap s !! r = Some fd ->
  appends (fan_out_event (time fd)) s (fan_out env service r s).2.
Proof.
  intros Hr. unfold fan_out.
  apply appends_bind; [apply appends_deref|]. intros fd'.
  rewrite (deref_run _ _ _ Hr). cbn [fst snd]. intros [= <-].
  apply appends_bind; [apply appends_emit; reflexivity|]. intros _ _.
  apply appends_bind; [apply appends_refl|]. intros channels _.
  apply appends_bind; [apply appends_emit; exact I|]. intros _ _.
  apply appends_bind; [|intros _ _; apply appends_emit; exact I].
  apply appends_for_each. intros c s' Hs'.
  apply send_updated_feed_appends.
  rewrite (appends_heap _ _ _ Hs'). exact Hr.
Qed.

Lemma dispatch_run service r fd s :
  heap s !! r = Some fd ->
  dispatch env service r s =
    if py_eq (old_fields_of s service) (PyList (fields fd))
    then log DEBUG (LogGhost service) (logged_fields s service fd)
    else match time fd with
         | PyDatetime d => fan_out env service r (accepted_state s service r fd d)
         | PyFloat _ => (Raise AttributeError, logged_fields s service fd)
         end.
Proof.
  intros Hr. unfold dispatch, bind. rewrite (check_real_update_run _ _ _ _ Hr).
  destruct (py_eq _ _); [reflexivity|].
  destruct (time fd); reflexivity.
Qed.

Lemma heap_accepted_state service r fd d s :
  heap (accepted_state s service r fd d) !! r = Some (set_time (PyFloat (timestamp d)) fd).
Proof. unfold accepted_state. cbn. apply lookup_insert_eq. Qed.

(** C3: on a ghost the feed store is left as it was and nothing is sent;
    on an accepted update the stored record of the service is replaced by
    the candidate, its time as an epoch number, and the write is in the
    trace before every send: after it come only the log lines and sends of
    the fan-out, which leave the stored record alone. *)
Theorem write_precedes_fan_out service r fd s :
  heap s !! r = Some fd ->
  let '(decision, _) := check_real_update service r s in
  let s2 := (dispatch env service r s).2 in
  match decision with
  | Return true =>
      exists d logs new,
        time fd = PyDatetime d
        /\ cfg_feed_store s2
           = <[service := set_time (PyFloat (timestamp d)) fd]> (cfg_feed_store s)
        /\ trace s2 = (trace s ++ logs ++ SetFeedStore (cfg_feed_store s2) :: new)%list
        /\ Forall (fun e => is_send e = false) logs
        /\ Forall (fan_out_event (PyFloat (timestamp d))) new
  | _ =>
      cfg_feed_store s2 = cfg_feed_store s
      /\ exists logs, trace s2 = (trace s ++ logs)%list
                      /\ Forall (fun e => is_send e = false) logs
  end.
Proof.
  intros Hr.
  rewrite (dispatch_run _ _ _ _ Hr), (check_real_update_run _ _ _ _ Hr).
  destruct (py_eq _ _).
  - split; [reflexivity|]. eexists. split.
    + cbn. rewrite <- !app_assoc. reflexivity.
    + repeat constructor.
  - destruct (time fd) as [d|f] eqn:Ht.
    + destruct (fan_out_appends service r _ _ (heap_accepted_state service r fd d s))
        as (new & Hs2 & Hnew).
      exists d, [Log DEBUG (LogOldFields (old_fields_of s service));
                 Log DEBUG (LogNewFields (PyList (fields fd)))], new.
      cbv zeta. rewrite Hs2. cbn.
      split; [reflexivity|]. split; [reflexivity|]. split.
      * rewrite <- !app_assoc. reflexivity.
      * split; [repeat constructor|exact Hnew].
    + split; [reflexivity|]. eexists. split.
      * cbn. rewrite <- !app_assoc. reflexivity.
      * repeat constructor.
Qed.

(** C10: an accepted update is changed in place: when [check_real_update]
    returns [True] the record behind the caller's reference holds the epoch
    float under ["time"], and that is the only time the fan-out that follows
    reads: the dictionary it logs and every embed it builds carry the float
    (or no timestamp at all), never the original [datetime]. *)
Theorem accepted_update_is_changed_in_place service r fd s :
  heap s !! r = Some fd ->
  (check_real_update service r s).1 = Return true ->
  exists d,
    time fd = PyDatetime d
    /\ heap (check_real_update service r s).2 !! r
       = Some (set_time (PyFloat (timestamp d)) fd)
    /\ appends (fan_out_event (PyFloat (timestamp d)))
         (check_real_update service r s).2
         (fan_out env service r (check_real_update service r s).2).2.
Proof.
  intros Hr. rewrite (check_real_update_run _ _ _ _ Hr).
  destruct (py_eq _ _); [discriminate|].
  destruct (time fd) as [d|f] eqn:Ht; [|discriminate].
  intros _. exists d. cbn [fst snd]. split; [reflexivity|]. split.
  - apply heap_accepted_state.
  - apply (fan_out_appends service r (set_time (PyFloat (timestamp d)) fd)).
    apply heap_accepted_state.
Qed.

End FanOut.

(** An accepted update, fanned out to the two channels of a guild. *)
Lemma write_precedes_fan_out_witness :
  let '(decision, _) :=
    check_real_update "discord" 0
      (subscribed [1; 3] (state_with (sample_update sample_fields 1609850000000000))) in
  let s2 :=
    (dispatch sample_env "discord" 0
       (subscribed [1; 3] (state_with (sample_update sample_fields 1609850000000000)))).2 in
  match decision with
  | Return true =>
      exists d logs new,
        time (sample_update sample_fields 1609850000000000) = PyDatetime d
        /\ cfg_feed_store s2
           = <["discord" := set_time (PyFloat (timestamp d))
                              (sample_update sample_fields 1609850000000000)]>
               (cfg_feed_store
                  (subscribed [1; 3]
                     (state_with (sample_update sample_fields 1609850000000000))))
        /\ trace s2
           = (trace (subscribed [1; 3]
                       (state_with (sample_update sample_fields 1609850000000000)))
              ++ logs ++ SetFeedStore (cfg_feed_store s2) :: new)%list
        /\ Forall (fun e => is_send e = false) logs
        /\ Forall (fan_out_event (PyFloat (timestamp d))) new
  | _ =>
      cfg_feed_store s2
      = cfg_feed_store
          (subscribed [1; 3] (state_with (sample_update sample_fields 1609850000000000)))
      /\ exists logs,
          trace s2
          = (trace (subscribed [1; 3]
                      (state_with (sample_update sample_fields 1609850000000000)))
             ++ logs)%list
          /\ Forall (fun e => is_send e = false) logs
  end.
Proof.
  apply (write_precedes_fan_out sample_env "discord" 0
           (sample_update sample_fields 1609850000000000)).
  reflexivity.
Defined.

Lemma accepted_update_is_changed_in_place_witness :
  exists d,
    time (sample_update sample_fields 1609850000000000) = PyDatetime d
    /\ heap (check_real_update "discord" 0
               (state_with (sample_update sample_fields 1609850000000000))).2 !! 0%nat
       = Some (set_time (PyFloat (timestamp d))
                 (sample_update sample_fields 1609850000000000))
    /\ appends (fan_out_event (PyFloat (timestamp d)))
         (check_real_update "discord" 0
            (state_with (sample_update sample_fields 1609850000000000))).2
         (fan_out sample_env "discord" 0
            (check_real_update "discord" 0
               (state_with (sample_update sample_fields 1609850000000000))).2).2.
Proof.
  apply (accepted_update_is_changed_in_place sample_env "discord" 0
           (sample_update sample_fields 1609850000000000)
           (state_with (sample_update sample_fields 1609850000000000))).
  - reflexivity.
  - vm_compute. reflexivity.
Defined.

(** ** Failures during the fan-out *)

Section Delivery.

Variable env : Env.

(** A refused send ([Forbidden]) is contained: the sender returns. *)
Lemma guarded_send_forbidden (c : channel) (m : message) (s : state) :
  channel_send env c m = Raise Forbidden ->
  (guarded_send env (Some c) m s).1 = Return tt.
Proof.
  intros H. unfold guarded_send, try_except, call_send. rewrite H. reflexivity.
Qed.

(** An id that resolves to no channel is not: [channel.send] raises
    [AttributeError] on [None], the clause catches it, and its log line
    raises again on [channel.id]. *)
Lemma guarded_send_unresolved (m : message) (s : state) :
  guarded_send env None m s = (Raise AttributeError, s).
Proof. reflexivity. Qed.

Lemma send_updated_feed_unresolved (r : nat) (fd : feeddict) (c : Z) (s : state) :
  heap s !! r = Some fd ->
  bot_get_channel env c = None ->
  exists e, (send_updated_feed env r c s).1 = Raise e.
Proof.
  intros Hr Hc. unfold send_updated_feed, bind, lift. rewrite Hc.
  destruct (bot_embed_requested env None) as [requested|e]; [|eauto].
  rewrite (deref_run _ _ _ Hr).
  destruct requested.
  - destruct (try_except _ _ s) as [[em|e] s1]; [|eauto].
    exists AttributeError. reflexivity.
  - exists AttributeError. reflexivity.
Qed.

(** C6, at three destinations of which the second resolves to no channel:
    the first receives the update, the exception raised for the second
    leaves [send_updated_feed] and ends the fan-out, and the third receives
    nothing; the cycle itself ends with that exception.  The stored record
    stays as accepted. *)
Theorem fan_out_stops_at_unresolved_channel :
  let s0 := subscribed [1; 2; 3] empty_state in
  let '(res, s) := actually_check_updates sample_env s0 in
  res = Raise AttributeError
  /\ delivered_to (trace s) = [1]
  /\ bot_get_channel sample_env 2 = None
  /\ collect_channels (cfg_guilds s) "discord" [] = [1; 2; 3]
  /\ fields <$> cfg_feed_store s !! "discord" = Some sample_fields.
Proof. vm_compute. repeat split; reflexivity. Qed.

End Delivery.

(** ** The polling cycle *)

Section Cycle.

Variable env : Env.

Implicit Types (feed : string * string) (s : state).

(** What the cycle leaves as the stored etags is the dictionary its loop
    worked on. *)
Lemma actually_check_updates_stores_etags s :
  cfg_etags (actually_check_updates env s).2
  = etags (for_each FEED_URLS (check_feed env) (with_etags (cfg_etags s) s)).2.
Proof.
  unfold actually_check_updates, with_config_etags.
  destruct (for_each FEED_URLS (check_feed env) (with_etags (cfg_etags s) s)) as [r s'].
  destruct (decide (etags s' = cfg_etags s')) as [Heq|_]; cbn; [symmetry; exact Heq|].
  reflexivity.
Qed.

(** C4, as the code has it: a [ConnectionRefusedError] or [URLError]
    raised while a service is processed is caught and logged, a [KeyError]
    is caught and answered by resetting the service's etag to ["hello"],
    and in both cases the loop goes on with the remaining services.  An
    exception of any other class leaves the loop at once, so the remaining
    services are not processed; hence the loop itself never ends with one
    of the three caught classes. *)
Theorem check_feed_contains_connection_errors feed (rest : list (string * string)) s :
  (let '(r, s1) := check_feed_try env feed s in
   for_each (feed :: rest) (check_feed env) s =
   match r with
   | Return _ => for_each rest (check_feed env) s1
   | Raise ConnectionRefusedError | Raise URLError =>
       for_each rest (check_feed env)
         (with_trace (trace s1 ++ [Log WARNING (LogUnableToConnect feed.1)]) s1)
   | Raise KeyError =>
       for_each rest (check_feed env) (with_etags (<[feed.1 := "hello"]> (etags s1)) s1)
   | Raise e => (Raise e, s1)
   end)
  /\ match (for_each (feed :: rest) (check_feed env) s).1 with
     | Raise ConnectionRefusedError | Raise URLError | Raise KeyError => False
     | _ => True
     end.
Proof.
  split.
  - cbn [for_each]. unfold bind at 1. unfold check_feed at 1. unfold try_except.
    destruct (check_feed_try env feed s) as [[[]|e] s1]; [reflexivity|].
    destruct e; reflexivity.
  - generalize (feed :: rest). clear feed rest. intros l. revert s.
    induction l as [|feed l IH]; intros s; [exact I|].
    cbn [for_each]. unfold bind at 1. unfold check_feed at 1. unfold try_except.
    destruct (check_feed_try env feed s) as [[[]|e] s1]; [apply IH|].
    destruct e; cbn; try exact I; apply IH.
Qed.

(** C7, as the code has it: a response whose status is not 200 leaves the
    feed store, the subscriptions and the heap alone and logs one debug
    line; in the dictionary of etags the cycle stores when it ends, the etag
    of the service stays as it was when there is one, and is set to the
    placeholder ["hello"] when there is none. *)
Theorem non_200_keeps_stored_etag feed s (resp : response) (code : Z) :
  feedparser_parse env feed.2 (etags s !! feed.1) = Return resp ->
  status resp = Some code ->
  code <> 200 ->
  check_feed env feed s =
    (Return tt,
     with_trace (trace s ++ [Log DEBUG (LogNoStatusUpdate feed.1)])
       match etags s !! feed.1 with
       | Some _ => s
       | None => with_etags (<[feed.1 := "hello"]> (etags s)) s
       end).
Proof.
  intros Hparse Hstatus Hcode.
  unfold check_feed, try_except, check_feed_try, bind at 1.
  assert (Hfetch : fetch env feed.1 feed.2 s =
                   (Return resp, match etags s !! feed.1 with
                                 | Some _ => s
                                 | None => with_etags (<[feed.1 := "hello"]> (etags s)) s
                                 end)).
  { unfold fetch, try_except, bind, get_state, lift, raise, set_etag, ret.
    destruct (etags s !! feed.1) as [tag|]; cbn; rewrite Hparse; reflexivity. }
  rewrite Hfetch. unfold bind, lift, attr. rewrite Hstatus.
  destruct (Z.eqb_spec code 200) as [->|_]; [contradiction|].
  destruct (etags s !! feed.1); reflexivity.
Qed.

End Cycle.

(** A parse failure in the first service ends the cycle: the exception
    is not caught, nothing is logged, and the second service is never
    fetched (a fetch would have left it an etag). *)
Lemma parse_failure_aborts_cycle :
  let '(res, s) := actually_check_updates malformed_env empty_state in
  helper_process_feed malformed_env "discord"
    {| status := Some 200; etag := Some "W/1"; body := "" |} = Raise IndexError
  /\ res = Raise IndexError
  /\ trace s = [SetEtags {[ "discord" := "W/1" ]}]
  /\ cfg_etags s !! "github" = None.
Proof. vm_compute. repeat split; reflexivity. Qed.

(** A 404 for a service without a stored etag stores one. *)
Lemma non_200_stores_placeholder_etag :
  let '(res, s) := actually_check_updates not_found_env empty_state in
  feedparser_parse not_found_env "https://discordstatus.com/history.atom" None
  = Return {| status := Some 404; etag := None; body := "" |}
  /\ cfg_etags empty_state !! "discord" = None
  /\ cfg_etags s !! "discord" = Some "hello".
Proof. vm_compute. repeat split; reflexivity. Qed.

(** A 404 for a service whose etag is stored. *)
Lemma non_200_keeps_stored_etag_witness :
  check_feed not_found_env ("discord", "https://discordstatus.com/history.atom")
    (with_etags {[ "discord" := "W/1" ]} empty_state)
  = (Return tt,
     with_trace [Log DEBUG (LogNoStatusUpdate "discord")]
       (with_etags {[ "discord" := "W/1" ]} empty_state)).
Proof.
  assert (Hcode : 404 <> 200) by lia.
  exact (non_200_keeps_stored_etag not_found_env
           ("discord", "https://discordstatus.com/history.atom")
           (with_etags {[ "discord" := "W/1" ]} empty_state)
           {| status := Some 404; etag := None; body := "" |} 404
           eq_refl eq_refl Hcode).
Defined.

(** ** SubscriptionIndex *)

Section Subscriptions.

Implicit Types (service : string) (s : state) (g : Z).

Lemma assoc_assoc_set {V} (k : Z) (v : V) (l : list (Z * V)) :
  assoc k (assoc_set k v l) = Some v.
Proof.
  induction l as [|[k' v'] l IH]; cbn.
  - destruct (decide (k = k)); congruence.
  - destruct (decide (k = k')) as [->|Hne]; cbn.
    + destruct (decide (k' = k')); congruence.
    + destruct (decide (k = k')); [contradiction|exact IH].
Qed.

Lemma guild_feeds_written s g (v : gmap string subscription)
    (l : list (Z * gmap string subscription)) (t : list event) :
  guild_feeds (with_trace t (with_cfg_guilds (assoc_set g v l) s)) g = v.
Proof. unfold guild_feeds. cbn. rewrite assoc_assoc_set. reflexivity. Qed.

Lemma friendly_name_defined service :
  service ∈ keys FEED_URLS ->
  exists friendly, getitem service FEED_FRIENDLY_NAMES = Return friendly.
Proof.
  unfold keys, FEED_URLS. cbn [fmap list_fmap fst].
  intros H. repeat (apply elem_of_cons in H as [->|H]); try (eexists; reflexivity).
  apply elem_of_nil in H. contradiction.
Qed.

Lemma collect_channels_concat (servers : list (Z * gmap string subscription))
    service (channels : list Z) :
  collect_channels servers service channels
  = (channels ++ List.concat (destinations service <$> servers))%list.
Proof.
  revert channels. induction servers as [|server rest IH]; intros channels; cbn.
  - rewrite app_nil_r. reflexivity.
  - unfold destinations at 1.
    destruct (server.2 !! service) as [[c|l]|]; rewrite IH; cbn.
    + rewrite <- app_assoc. reflexivity.
    + rewrite <- app_assoc. reflexivity.
    + reflexivity.
Qed.

Variable env : Env.

(** C8, as the code has it, for a service of [FEED_URLS]: when the guild
    stores a list for the service and the channel is not in it, the command
    answers that it sends no updates there and changes nothing; when the
    guild stores the single integer of an older version, the command empties
    the entry whatever channel it is given; where the stored id still
    resolves to a channel its reply names that stored channel, and where it
    resolves to none the command is left by the [AttributeError] of
    [channel.mention], without a reply. *)
Theorem statusset_remove_by_shape g service (channel : channel) s :
  service ∈ keys FEED_URLS ->
  let '(res, s') := statusset_remove env g service channel s in
  (forall l,
     guild_feeds s g !! service = Some (SubList l) ->
     channel_id channel ∉ l ->
     exists friendly,
       res = Return tt
       /\ cfg_guilds s' = cfg_guilds s
       /\ trace s' = (trace s ++ [CtxSend (ReplyNotSending friendly (mention channel))])%list)
  /\ (forall c,
        guild_feeds s g !! service = Some (SubInt c) ->
        guild_feeds s' g !! service = Some (SubList [])
        /\ match bot_get_channel env c with
           | Some stored =>
               exists friendly,
                 res = Return tt
                 /\ trace s' = (trace s ++ [CtxSend (ReplyRemoved friendly (mention stored));
                                            SetGuildFeeds g (guild_feeds s' g)])%list
           | None =>
               res = Raise AttributeError
               /\ trace s' = (trace s ++ [SetGuildFeeds g (guild_feeds s' g)])%list
           end).
Proof.
  intros Hvalid.
  destruct (friendly_name_defined _ Hvalid) as [friendly Hfriendly].
  unfold statusset_remove. rewrite (bool_decide_eq_true_2 _ Hvalid). cbn [negb].
  unfold with_guild_feeds.
  destruct (statusset_remove_block env service channel (with_feeds (guild_feeds s g) s))
    as [res s'] eqn:Hblock.
  revert Hblock.
  unfold statusset_remove_block, try_except, bind, feeds_get, lift.
  change (feeds (with_feeds (guild_feeds s g) s)) with (guild_feeds s g).
  destruct (guild_feeds s g !! service) as [[c|l]|] eqn:Hlookup.
  - cbn [py_in]. unfold feeds_set, ret.
    change (feeds (with_feeds (guild_feeds s g) s)) with (guild_feeds s g).
    rewrite Hlookup, Hfriendly.
    assert (Hchanged : <[service := SubList []]> (guild_feeds s g) <> guild_feeds s g).
    { intros Heq. apply (f_equal (fun m => m !! service)) in Heq.
      rewrite lookup_insert_eq, Hlookup in Heq. discriminate. }
    destruct (bot_get_channel env c) as [stored|] eqn:Hch; cbn [get_mention];
      unfold emit; intros [= <- <-]; cbn [feeds with_feeds with_trace];
      (destruct (decide _) as [Heq|_]; [contradiction|]);
      (split; [intros l [=]|]); intros c0 [= <-];
      rewrite !guild_feeds_written, lookup_insert_eq, Hch;
      (split; [reflexivity|]).
    + exists friendly. split; [reflexivity|].
      cbn [trace with_trace with_cfg_guilds]. rewrite <- app_assoc. reflexivity.
    + split; reflexivity.
  - cbn [py_in]. destruct (decide (channel_id channel ∈ l)) as [Hin|Hnotin].
    + intros _. destruct (decide _);
        (split; [intros l' [= <-] Hnotin; contradiction|intros c [=]]).
    + rewrite (bool_decide_eq_false_2 _ Hnotin). cbn [negb].
      rewrite Hfriendly. unfold emit, ret. intros [= <- <-].
      cbn [feeds with_feeds with_trace].
      destruct (decide _) as [_|Hne]; [|contradiction].
      split; [|intros c [=]]. intros l' _ _.
      exists friendly. split; [reflexivity|]. split; reflexivity.
  - intros _. destruct (decide _); split; intros ? [=].
Qed.

Lemma statusset_add_block_feeds service (channel : channel) s :
  service ∈ keys FEED_URLS ->
  cfg_guilds (statusset_add_block service channel s).2 = cfg_guilds s
  /\ (feeds (statusset_add_block service channel s).2 = feeds s
      \/ (feeds s !! service = None
          /\ feeds (statusset_add_block service channel s).2
             = <[service := SubList [channel_id channel]]> (feeds s))
      \/ (exists l,
            feeds s !! service = Some (SubList l)
            /\ (channel_id channel ∉ l)
            /\ feeds (statusset_add_block service channel s).2
               = <[service := SubList (l ++ [channel_id channel])]> (feeds s))).
Proof.
  intros Hvalid. destruct (friendly_name_defined _ Hvalid) as [friendly Hfriendly].
  unfold statusset_add_block, try_except, bind, feeds_get, lift.
  destruct (feeds s !! service) as [[c|l]|] eqn:Hlookup; cbn [py_in].
  - split; [reflexivity|]. left. reflexivity.
  - destruct (decide (channel_id channel ∈ l)) as [Hin|Hnotin].
    + rewrite (bool_decide_eq_true_2 _ Hin), Hfriendly. cbn. auto.
    + rewrite (bool_decide_eq_false_2 _ Hnotin). unfold ret. rewrite Hlookup.
      rewrite Hlookup. cbn [py_append]. split; [reflexivity|].
      right. right. exists l. auto.
  - unfold ret. rewrite Hlookup. unfold feeds_set. cbn [feeds with_feeds].
    rewrite lookup_insert_eq. cbn [py_append app]. cbn [feeds with_feeds].
    rewrite insert_insert_eq. split; [reflexivity|]. right. left. auto.
Qed.

Lemma statusset_add_feeds g service (channel : channel) s :
  guild_feeds (statusset_add g service channel s).2 g = guild_feeds s g
  \/ (guild_feeds s g !! lower service = None
      /\ guild_feeds (statusset_add g service channel s).2 g
         = <[lower service := SubList [channel_id channel]]> (guild_feeds s g))
  \/ (exists l,
        guild_feeds s g !! lower service = Some (SubList l)
        /\ (channel_id channel ∉ l)
        /\ guild_feeds (statusset_add g service channel s).2 g
           = <[lower service := SubList (l ++ [channel_id channel])]> (guild_feeds s g)).
Proof.
  remember (guild_feeds (statusset_add g service channel s).2 g) as after eqn:Hafter.
  revert Hafter. unfold statusset_add.
  destruct (bool_decide (lower service ∈ keys FEED_URLS)) eqn:Hvalid;
    cbn [negb]; [|left; assumption].
  apply bool_decide_eq_true_1 in Hvalid.
  destruct (can_send_messages channel); cbn [negb]; [|left; assumption].
  destruct (can_embed_links channel); cbn [negb]; [|left; assumption].
  assert (Hblock := statusset_add_block_feeds (lower service) channel
                      (with_feeds (guild_feeds s g) s) Hvalid).
  change (feeds (with_feeds (guild_feeds s g) s)) with (guild_feeds s g) in Hblock.
  change (cfg_guilds (with_feeds (guild_feeds s g) s)) with (cfg_guilds s) in Hblock.
  unfold bind at 1. unfold with_guild_feeds.
  destruct (statusset_add_block (lower service) channel (with_feeds (guild_feeds s g) s))
    as [r s1].
  cbn [fst snd] in Hblock. destruct Hblock as [Hcfg Hfeeds].
  assert (Hend : forall (s2 : state),
             guild_feeds
               (match r with
                | Return returned =>
                    (if (returned : bool) then ret tt
                     else friendly <- lift (getitem (lower service) FEED_FRIENDLY_NAMES) ;;
                          emit (CtxSend (ReplyDone (mention channel) friendly))) s2
                | Raise e => (Raise e, s2)
                end).2 g = guild_feeds s2 g).
  { intros s2. destruct r as [[]|e]; try reflexivity.
    unfold bind, lift. destruct (getitem _ _); reflexivity. }
  destruct (decide (feeds s1 = guild_feeds s g)) as [Hsame|Hchanged]; rewrite Hend.
  - intros ->. left. unfold guild_feeds. rewrite Hcfg. reflexivity.
  - rewrite guild_feeds_written. intros ->.
    destruct Hfeeds as [Hf|[[Hnone Hf]|(l & Hl & Hnotin & Hf)]].
    + contradiction.
    + right. left. auto.
    + right. right. exists l. auto.
Qed.

(** C9, as the code has it: [get_channels] gives the stored destinations of
    every guild, one guild after the other and duplicates included, an
    integer stored by an older version counting as a one-element list; and
    [statusset add] keeps the lists of a guild free of duplicates. *)
Theorem get_channels_concatenates_scopes service s g (added : string) (channel : channel) :
  get_channels service s
  = (Return (List.concat (destinations service <$> cfg_guilds s)), s)
  /\ (duplicate_free s g -> duplicate_free (statusset_add g added channel s).2 g).
Proof.
  split.
  - unfold get_channels, bind, get_state, ret. rewrite collect_channels_concat. reflexivity.
  - intros Hfree svc l.
    destruct (statusset_add_feeds g added channel s)
      as [->|[[Hnone ->]|(l0 & Hl0 & Hnotin & ->)]].
    + apply Hfree.
    + destruct (decide (lower added = svc)) as [<-|Hne].
      * rewrite lookup_insert_eq. intros [= <-]. apply NoDup_singleton.
      * rewrite lookup_insert_ne by exact Hne. apply Hfree.
    + destruct (decide (lower added = svc)) as [<-|Hne].
      * rewrite lookup_insert_eq. intros [= <-]. apply NoDup_app.
        split; [exact (Hfree _ _ Hl0)|]. split; [|apply NoDup_singleton].
        intros x Hx Hx'. apply list_elem_of_singleton in Hx'. subst x. contradiction.
      * rewrite lookup_insert_ne by exact Hne. apply Hfree.
Qed.

End Subscriptions.

(** Removing channel [7] from a guild whose legacy entry holds channel [5]
    empties the entry and reports the removal of [5]. *)
Lemma statusset_remove_clears_legacy_entry :
  let '(res, s) := statusset_remove sample_env 100 "github" (sample_channel 7) legacy_guild in
  guild_feeds legacy_guild 100 !! "github" = Some (SubInt 5)
  /\ res = Return tt
  /\ guild_feeds s 100 !! "github" = Some (SubList [])
  /\ trace s = [ CtxSend (ReplyRemoved "GitHub" "<#5>");
                 SetGuildFeeds 100 {[ "github" := SubList [] ]} ].
Proof. vm_compute. repeat split; reflexivity. Qed.

(** Removing a channel the guild's list does not hold. *)
Lemma statusset_remove_by_shape_witness :
  let '(res, s) :=
    statusset_remove sample_env 100 "discord" (sample_channel 7)
      (subscribed [1; 3] empty_state) in
  exists friendly,
    res = Return tt
    /\ cfg_guilds s = cfg_guilds (subscribed [1; 3] empty_state)
    /\ trace s = [CtxSend (ReplyNotSending friendly (mention (sample_channel 7)))].
Proof.
  assert (Hvalid : "discord" ∈ keys FEED_URLS).
  { apply (bool_decide_unpack _). vm_compute. exact I. }
  pose proof (statusset_remove_by_shape sample_env 100 "discord" (sample_channel 7)
                (subscribed [1; 3] empty_state) Hvalid) as H.
  destruct (statusset_remove sample_env 100 "discord" (sample_channel 7) _) as [res s].
  destruct H as [Hlist _]. apply (Hlist [1; 3]).
  - reflexivity.
  - apply (bool_decide_unpack _). vm_compute. exact I.
Defined.

(** Removing channel [7] from a guild whose legacy entry holds channel [2],
    which no longer exists: the entry is emptied and written back, and the
    command is left by an [AttributeError] before any reply. *)
Example statusset_remove_legacy_channel_gone :
  let '(res, s) :=
    statusset_remove sample_env 100 "github" (sample_channel 7)
      (with_cfg_guilds [ (100, {[ "github" := SubInt 2 ]}) ] empty_state) in
  res = Raise AttributeError
  /\ guild_feeds s 100 !! "github" = Some (SubList [])
  /\ trace s = [ SetGuildFeeds 100 {[ "github" := SubList [] ]} ].
Proof. vm_compute. repeat split; reflexivity. Qed.

(** A channel subscribed in two guilds is listed twice. *)
Lemma get_channels_repeats_channel :
  (get_channels "github" two_guilds).1 = Return [5; 5] /\ ~ NoDup [5; 5].
Proof.
  split; [reflexivity|].
  intros H. apply NoDup_cons in H as [Hnotin _]. apply Hnotin. left.
Qed.

(** A third channel added to a guild that lists two. *)
Lemma get_channels_concatenates_scopes_witness :
  duplicate_free (subscribed [1; 3] empty_state) 100
  /\ duplicate_free
       (statusset_add 100 "Discord" (sample_channel 7) (subscribed [1; 3] empty_state)).2 100
  /\ guild_feeds
       (statusset_add 100 "Discord" (sample_channel 7) (subscribed [1; 3] empty_state)).2 100
     !! "discord" = Some (SubList [1; 3; 7]).
Proof.
  assert (Hfree : duplicate_free (subscribed [1; 3] empty_state) 100).
  { intros svc l.
    change (guild_feeds (subscribed [1; 3] empty_state) 100)
      with ({[ "discord" := SubList [1; 3] ]} : gmap string subscription).
    intros H. apply lookup_singleton_Some in H as [_ [= <-]].
    apply (bool_decide_unpack _). vm_compute. exact I. }
  split; [exact Hfree|]. split.
  - apply (get_channels_concatenates_scopes "discord" (subscribed [1; 3] empty_state)
             100 "Discord" (sample_channel 7)).
    exact Hfree.
  - vm_compute. reflexivity.
Defined.

(** * Further properties *)

(** ** The [statusset] commands, case by case *)

Section Commands.

Variable env : Env.

Implicit Types (service : string) (s : state) (g : Z) (channel : channel).

Lemma keys_are_lower_case service : service ∈ keys FEED_URLS -> lower service = service.
Proof.
  unfold keys, FEED_URLS. cbn [fmap list_fmap fst].
  intros H. repeat (apply elem_of_cons in H as [->|H]); try reflexivity.
  apply elem_of_nil in H. contradiction.
Qed.

Lemma feeds_with_feeds s (v : gmap string subscription) : feeds (with_feeds v s) = v.
Proof. reflexivity. Qed.

(** [statusset add] on an entry that does not list the channel yet. *)
Lemma statusset_add_new g service channel s (l : list Z) :
  lower service ∈ keys FEED_URLS ->
  can_send_messages channel = true ->
  can_embed_links channel = true ->
  guild_feeds s g !! lower service = None /\ l = []
  \/ guild_feeds s g !! lower service = Some (SubList l) /\ channel_id channel ∉ l ->
  exists friendly,
    getitem (lower service) FEED_FRIENDLY_NAMES = Return friendly
    /\ statusset_add g service channel s =
       let feeds' := <[lower service := SubList (l ++ [channel_id channel])]> (guild_feeds s g) in
       (Return tt,
        with_trace (trace s ++ [SetGuildFeeds g feeds';
                                CtxSend (ReplyDone (mention channel) friendly)])
          (with_cfg_guilds (assoc_set g feeds' (cfg_guilds s)) (with_feeds feeds' s))).
Proof.
  intros Hvalid Hsend Hembed Hentry.
  destruct (friendly_name_defined _ Hvalid) as [friendly Hfriendly].
  exists friendly. split; [exact Hfriendly|].
  unfold statusset_add. rewrite (bool_decide_eq_true_2 _ Hvalid), Hsend, Hembed. cbn [negb].
  assert (Hchanged : <[lower service := SubList (l ++ [channel_id channel])]> (guild_feeds s g)
                     <> guild_feeds s g).
  { intros Heq. apply (f_equal (fun m => m !! lower service)) in Heq.
    rewrite lookup_insert_eq in Heq.
    destruct Hentry as [[Hnone _]|[Hl _]]; rewrite ?Hnone, ?Hl in Heq; [discriminate|].
    injection Heq as Heq. apply (f_equal List.length) in Heq.
    rewrite length_app in Heq. cbn in Heq. lia. }
  unfold bind at 1. unfold with_guild_feeds.
  assert (Hblock : statusset_add_block (lower service) channel (with_feeds (guild_feeds s g) s)
                   = (Return false,
                      with_feeds (<[lower service := SubList (l ++ [channel_id channel])]>
                                    (guild_feeds s g)) s)).
  { unfold statusset_add_block, try_except, bind, feeds_get, lift, ret, feeds_set.
    rewrite feeds_with_feeds.
    destruct Hentry as [[Hnone ->]|[Hl Hnotin]].
    - rewrite Hnone, feeds_with_feeds, Hnone, !feeds_with_feeds, lookup_insert_eq.
      cbn [py_append app]. rewrite !feeds_with_feeds, insert_insert_eq. reflexivity.
    - rewrite Hl. cbn [py_in]. rewrite (bool_decide_eq_false_2 _ Hnotin).
      rewrite !feeds_with_feeds, Hl, !feeds_with_feeds, Hl. cbn [py_append].
      rewrite !feeds_with_feeds. reflexivity. }
  rewrite Hblock, feeds_with_feeds.
  destruct (decide _) as [Heq|_]; [contradiction|].
  unfold bind, lift. rewrite Hfriendly. unfold emit. cbn.
  rewrite <- app_assoc. reflexivity.
Qed.

(** [statusset remove] on a list that holds the channel. *)
Lemma statusset_remove_present g service channel s (l : list Z) :
  service ∈ keys FEED_URLS ->
  guild_feeds s g !! service = Some (SubList l) ->
  channel_id channel ∈ l ->
  exists friendly,
    getitem service FEED_FRIENDLY_NAMES = Return friendly
    /\ statusset_remove env g service channel s =
       let feeds' := <[service := SubList (list_remove (channel_id channel) l)]>
                       (guild_feeds s g) in
       (Return tt,
        with_trace (trace s ++ [CtxSend (ReplyRemoved friendly (mention channel));
                                SetGuildFeeds g feeds'])
          (with_cfg_guilds (assoc_set g feeds' (cfg_guilds s)) (with_feeds feeds' s))).
Proof.
  intros Hvalid Hl Hin.
  destruct (friendly_name_defined _ Hvalid) as [friendly Hfriendly].
  exists friendly. split; [exact Hfriendly|].
  unfold statusset_remove. rewrite (bool_decide_eq_true_2 _ Hvalid). cbn [negb].
  assert (Hshorter : forall l', channel_id channel ∈ l' ->
            (List.length (list_remove (channel_id channel) l') < List.length l')%nat).
  { induction l' as [|y l' IH]; intros Hy; [apply elem_of_nil in Hy; contradiction|].
    cbn. destruct (decide (channel_id channel = y)) as [_|Hne]; [lia|].
    apply elem_of_cons in Hy as [?|Hy]; [contradiction|]. cbn. specialize (IH Hy). lia. }
  assert (Hchanged : <[service := SubList (list_remove (channel_id channel) l)]> (guild_feeds s g)
                     <> guild_feeds s g).
  { intros Heq. apply (f_equal (fun m => m !! service)) in Heq.
    rewrite lookup_insert_eq, Hl in Heq. injection Heq as Heq.
    specialize (Hshorter l Hin). rewrite Heq in Hshorter. lia. }
  unfold with_guild_feeds.
  assert (Hblock : statusset_remove_block env service channel (with_feeds (guild_feeds s g) s)
                   = (Return tt,
                      with_trace (trace s ++ [CtxSend (ReplyRemoved friendly (mention channel))])
                        (with_feeds (<[service := SubList (list_remove (channel_id channel) l)]>
                                       (guild_feeds s g)) s))).
  { unfold statusset_remove_block, try_except, bind, feeds_get, lift, ret, feeds_set.
    rewrite feeds_with_feeds, Hl. cbn [py_in]. rewrite (bool_decide_eq_true_2 _ Hin).
    cbn [negb]. rewrite Hfriendly. cbn [get_mention]. rewrite !feeds_with_feeds. reflexivity. }
  rewrite Hblock. cbn [feeds with_feeds with_trace].
  destruct (decide _) as [Heq|_]; [contradiction|].
  cbn. rewrite <- app_assoc. reflexivity.
Qed.

Lemma list_remove_app_new (x : Z) (l : list Z) : x ∉ l -> list_remove x (l ++ [x]) = l.
Proof.
  induction l as [|y l IH]; intros Hx; cbn.
  - destruct (decide (x = x)); congruence.
  - apply not_elem_of_cons in Hx as [Hne Hx].
    destruct (decide (x = y)); [contradiction|]. rewrite IH by exact Hx. reflexivity.
Qed.

(** [statusset remove] undoes [statusset add]: a channel added to a guild's
    list and removed again leaves the list as it was (the empty list when
    the guild had no entry for the service), and both commands report
    success.  [add] takes the service in any case, [remove] in lower case. *)
Theorem statusset_remove_undoes_add g service channel s (l : list Z) :
  lower service ∈ keys FEED_URLS ->
  can_send_messages channel = true ->
  can_embed_links channel = true ->
  guild_feeds s g !! lower service = None /\ l = []
  \/ guild_feeds s g !! lower service = Some (SubList l) /\ channel_id channel ∉ l ->
  let '(r1, s1) := statusset_add g service channel s in
  let '(r2, s2) := statusset_remove env g (lower service) channel s1 in
  r1 = Return tt
  /\ guild_feeds s1 g !! lower service = Some (SubList (l ++ [channel_id channel]))
  /\ r2 = Return tt
  /\ guild_feeds s2 g = <[lower service := SubList l]> (guild_feeds s g).
Proof.
  intros Hvalid Hsend Hembed Hentry.
  destruct (statusset_add_new g service channel s l Hvalid Hsend Hembed Hentry)
    as (friendly & _ & ->).
  cbv zeta.
  set (feeds1 := <[lower service := SubList (l ++ [channel_id channel])]> (guild_feeds s g)).
  set (s1 := with_trace _ _).
  assert (Hs1 : guild_feeds s1 g = feeds1) by apply guild_feeds_written.
  assert (Hl1 : guild_feeds s1 g !! lower service = Some (SubList (l ++ [channel_id channel]))).
  { rewrite Hs1. apply lookup_insert_eq. }
  assert (Hin : channel_id channel ∈ (l ++ [channel_id channel])%list).
  { apply elem_of_app. right. apply list_elem_of_singleton. reflexivity. }
  destruct (statusset_remove_present g (lower service) channel s1 _ Hvalid Hl1 Hin)
    as (friendly' & _ & ->).
  cbv zeta. split; [reflexivity|]. split; [exact Hl1|]. split; [reflexivity|].
  rewrite guild_feeds_written, Hs1. unfold feeds1.
  rewrite insert_insert_eq, list_remove_app_new; [reflexivity|].
  destruct Hentry as [[_ ->]|[_ Hnotin]]; [apply not_elem_of_nil|exact Hnotin].
Qed.

(** [statusset add] with a channel the guild's list already holds replies
    that the channel already receives the updates and stores nothing; so a
    second [add] of the same channel leaves it in the list exactly once. *)
Theorem statusset_add_twice g service channel s (l : list Z) :
  lower service ∈ keys FEED_URLS ->
  can_send_messages channel = true ->
  can_embed_links channel = true ->
  guild_feeds s g !! lower service = None /\ l = []
  \/ guild_feeds s g !! lower service = Some (SubList l) /\ channel_id channel ∉ l ->
  let s1 := (statusset_add g service channel s).2 in
  let '(r2, s2) := statusset_add g service channel s1 in
  exists friendly,
    r2 = Return tt
    /\ trace s2 = (trace s1 ++ [CtxSend (ReplyAlreadyReceives (mention channel) friendly)])%list
    /\ cfg_guilds s2 = cfg_guilds s1
    /\ guild_feeds s2 g !! lower service = Some (SubList (l ++ [channel_id channel])).
Proof.
  intros Hvalid Hsend Hembed Hentry.
  destruct (statusset_add_new g service channel s l Hvalid Hsend Hembed Hentry)
    as (friendly & Hfriendly & ->).
  cbv zeta. cbn [snd].
  set (feeds1 := <[lower service := SubList (l ++ [channel_id channel])]> (guild_feeds s g)).
  set (s1 := with_trace _ _).
  assert (Hs1 : guild_feeds s1 g = feeds1) by apply guild_feeds_written.
  assert (Hin : channel_id channel ∈ (l ++ [channel_id channel])%list).
  { apply elem_of_app. right. apply list_elem_of_singleton. reflexivity. }
  unfold statusset_add. rewrite (bool_decide_eq_true_2 _ Hvalid), Hsend, Hembed. cbn [negb].
  unfold bind at 1. unfold with_guild_feeds.
  assert (Hblock : statusset_add_block (lower service) channel (with_feeds (guild_feeds s1 g) s1)
                   = (Return true,
                      with_trace (trace s1 ++ [CtxSend (ReplyAlreadyReceives (mention channel)
                                                          friendly)])
                        (with_feeds (guild_feeds s1 g) s1))).
  { unfold statusset_add_block, try_except, bind, feeds_get, lift, ret.
    rewrite feeds_with_feeds, Hs1. unfold feeds1 at 1. rewrite lookup_insert_eq.
    cbn [py_in]. rewrite (bool_decide_eq_true_2 _ Hin), Hfriendly. reflexivity. }
  rewrite Hblock. cbn [feeds with_feeds with_trace].
  destruct (decide _) as [_|Hne]; [|contradiction].
  cbn [ret fst snd]. exists friendly.
  split; [reflexivity|]. split; [reflexivity|]. split; [reflexivity|].
  change (guild_feeds (with_trace (trace s1 ++ [CtxSend (ReplyAlreadyReceives (mention channel)
                                                          friendly)])
                         (with_feeds (guild_feeds s1 g) s1)) g) with (guild_feeds s1 g).
  rewrite Hs1. apply lookup_insert_eq.
Qed.

(** [statusset add] on a guild whose entry for the service is still the
    single integer of an older version: the membership test raises
    [TypeError] before the migration of the entry is reached; nothing is
    stored and nothing is replied. *)
Theorem statusset_add_legacy_entry g service channel s (c : Z) :
  lower service ∈ keys FEED_URLS ->
  can_send_messages channel = true ->
  can_embed_links channel = true ->
  guild_feeds s g !! lower service = Some (SubInt c) ->
  let '(r, s') := statusset_add g service channel s in
  r = Raise TypeError /\ cfg_guilds s' = cfg_guilds s /\ trace s' = trace s.
Proof.
  intros Hvalid Hsend Hembed Hc.
  unfold statusset_add. rewrite (bool_decide_eq_true_2 _ Hvalid), Hsend, Hembed. cbn [negb].
  unfold bind at 1. unfold with_guild_feeds.
  assert (Hblock : statusset_add_block (lower service) channel (with_feeds (guild_feeds s g) s)
                   = (Raise TypeError, with_feeds (guild_feeds s g) s)).
  { unfold statusset_add_block, try_except, bind, feeds_get, lift.
    rewrite feeds_with_feeds, Hc. reflexivity. }
  rewrite Hblock, feeds_with_feeds.
  destruct (decide _) as [_|Hne]; [|contradiction]. auto.
Qed.

(** [statusset remove] for a service the guild has no entry for raises
    [KeyError]: nothing is stored and nothing is replied. *)
Theorem statusset_remove_no_entry g service channel s :
  service ∈ keys FEED_URLS ->
  guild_feeds s g !! service = None ->
  let '(r, s') := statusset_remove env g service channel s in
  r = Raise KeyError /\ cfg_guilds s' = cfg_guilds s /\ trace s' = trace s.
Proof.
  intros Hvalid Hnone.
  unfold statusset_remove. rewrite (bool_decide_eq_true_2 _ Hvalid). cbn [negb].
  unfold with_guild_feeds.
  assert (Hblock : statusset_remove_block env service channel (with_feeds (guild_feeds s g) s)
                   = (Raise KeyError, with_feeds (guild_feeds s g) s)).
  { unfold statusset_remove_block, try_except, bind, feeds_get.
    rewrite feeds_with_feeds, Hnone. reflexivity. }
  rewrite Hblock, feeds_with_feeds.
  destruct (decide _) as [_|Hne]; [|contradiction]. auto.
Qed.

(** [statusset remove] compares the service as typed: a name with an
    upper-case letter is refused as invalid, although [statusset add]
    lowers it first and accepts it. *)
Theorem statusset_remove_is_case_sensitive g service channel s :
  lower service <> service ->
  statusset_remove env g service channel s
  = (Return tt, with_trace (trace s ++ [CtxSend ReplyInvalidService]) s).
Proof.
  intros Hcase. unfold statusset_remove.
  rewrite bool_decide_eq_false_2; [reflexivity|].
  intros Hvalid. apply Hcase, keys_are_lower_case, Hvalid.
Qed.

End Commands.

(** ** Destinations and sends *)

Section Sends.

Variable env : Env.

Implicit Types (service : string) (s : state) (r : nat) (fd : feeddict) (c : Z)
  (ch : channel).

(** [get_channels] raises nothing and changes nothing, and a channel id is
    among the destinations of a service exactly when some guild stores it
    for the service, in a list or as the single integer of an older
    version. *)
Theorem get_channels_membership service s c :
  exists channels,
    get_channels service s = (Return channels, s)
    /\ (c ∈ channels <->
        exists server,
          server ∈ cfg_guilds s
          /\ (server.2 !! service = Some (SubInt c)
              \/ exists l, server.2 !! service = Some (SubList l) /\ c ∈ l)).
Proof.
  eexists. split.
  - unfold get_channels, bind, get_state, ret. rewrite collect_channels_concat. reflexivity.
  - cbn [app]. rewrite list_elem_of_In, in_concat. split.
    + intros (l & Hl & Hc). apply list_elem_of_In, list_elem_of_fmap in Hl
        as (server & -> & Hserver).
      exists server. split; [exact Hserver|].
      unfold destinations in Hc.
      destruct (server.2 !! service) as [[c'|l]|]; cbn in Hc.
      * destruct Hc as [->|[]]. left. reflexivity.
      * right. exists l. split; [reflexivity|]. apply list_elem_of_In, Hc.
      * contradiction.
    + intros (server & Hserver & Hstored).
      exists (destinations service server). split.
      * apply list_elem_of_In, list_elem_of_fmap. exists server. auto.
      * unfold destinations.
        destruct Hstored as [->|(l & -> & Hc)]; [left; reflexivity|].
        apply list_elem_of_In, Hc.
Qed.

Lemma add_fields_run (l : list field) (em : embed) :
  fold_left add_field l em
  = {| embed_title := embed_title em; embed_description := embed_description em;
       embed_timestamp := embed_timestamp em; embed_colour := embed_colour em;
       embed_fields := embed_fields em ++ l |}.
Proof.
  revert em. induction l as [|f l IH]; intros em; cbn [fold_left].
  - rewrite app_nil_r. destruct em; reflexivity.
  - rewrite IH. cbn. rewrite <- app_assoc. reflexivity.
Qed.

Lemma string_app_cons (x : ascii) (a b : string) :
  (String x a ++ b = String x (a ++ b))%string.
Proof. reflexivity. Qed.

Lemma string_app_assoc (a b c : string) : ((a ++ b) ++ c = a ++ (b ++ c))%string.
Proof.
  induction a as [|x a IH]; [reflexivity|].
  rewrite !string_app_cons, IH. reflexivity.
Qed.

Lemma string_app_empty (a : string) : (a ++ "" = a)%string.
Proof.
  induction a as [|x a IH]; [reflexivity|].
  rewrite string_app_cons, IH. reflexivity.
Qed.

Lemma add_blocks_run (l : list field) (msg : string) :
  fold_left (fun msg i => msg ++ "**" ++ name i ++ "**" ++ nl ++ value i ++ nl) l msg
  = (msg ++ String.concat "" (text_block <$> l))%string.
Proof.
  revert msg. induction l as [|f l IH]; intros msg; cbn [fold_left fmap list_fmap].
  - cbn. rewrite string_app_empty. reflexivity.
  - rewrite IH. rewrite string_app_assoc. f_equal.
    destruct l; cbn; [rewrite string_app_empty|]; reflexivity.
Qed.

(** What [send_updated_feed] sends up to the call of [channel.send]: the
    message and the warning that may precede it. *)
Lemma send_updated_feed_run r fd c ch s (requested : bool) :
  heap s !! r = Some fd ->
  bot_get_channel env c = Some ch ->
  bot_embed_requested env (Some ch) = Return requested ->
  send_updated_feed env r c s =
    if requested
    then guarded_send env (Some ch) (MsgEmbed (embed_of env fd))
           (with_trace (trace s ++ timestamp_warning env fd) s)
    else guarded_send env (Some ch) (MsgText (text_of env fd)) s.
Proof.
  intros Hr Hc Hreq. unfold send_updated_feed, bind at 1, lift.
  rewrite Hc, Hreq. unfold bind at 1. rewrite (deref_run _ _ _ Hr).
  destruct requested.
  - unfold bind, try_except, lift, Embed, embed_of, timestamp_warning.
    destruct (embed_rejects_timestamp env (time fd)); cbn [log emit bind].
    + unfold log, emit. cbn. rewrite add_fields_run. reflexivity.
    + rewrite add_fields_run. cbn. rewrite app_nil_r, with_trace_id. reflexivity.
  - unfold text_of. rewrite add_blocks_run. rewrite !string_app_assoc. reflexivity.
Qed.

Lemma send_run_delivered r fd c ch s (requested : bool) :
  heap s !! r = Some fd ->
  bot_get_channel env c = Some ch ->
  bot_embed_requested env (Some ch) = Return requested ->
  channel_send env ch (message_of env fd requested) = Return tt ->
  send_updated_feed env r c s =
    (Return tt,
     with_trace (trace s
                 ++ (if requested then timestamp_warning env fd else [])
                 ++ [ChannelSend ch (message_of env fd requested) None]) s).
Proof.
  intros Hr Hc Hreq Hsend. rewrite (send_updated_feed_run r fd c ch s requested Hr Hc Hreq).
  unfold guarded_send, try_except, call_send. destruct requested; cbn [message_of] in Hsend.
  - rewrite Hsend. unfold emit. cbn. rewrite <- app_assoc. reflexivity.
  - rewrite Hsend. reflexivity.
Qed.

Lemma send_run_failed r fd c ch s (requested : bool) (e : exn) :
  heap s !! r = Some fd ->
  bot_get_channel env c = Some ch ->
  bot_embed_requested env (Some ch) = Return requested ->
  channel_send env ch (message_of env fd requested) = Raise e ->
  send_updated_feed env r c s =
    (if caught_on_send e then Return tt else Raise e,
     with_trace (trace s
                 ++ (if requested then timestamp_warning env fd else [])
                 ++ [ChannelSend ch (message_of env fd requested) (Some e)]
                 ++ (if caught_on_send e
                     then [Log DEBUG (LogUnableToSend (channel_id ch) (guild_id ch))]
                     else [])) s).
Proof.
  intros Hr Hc Hreq Hsend. rewrite (send_updated_feed_run r fd c ch s requested Hr Hc Hreq).
  unfold guarded_send, try_except, call_send. destruct requested; cbn [message_of] in Hsend;
    rewrite Hsend; unfold emit, bind, raise, log_unable_to_send, log, emit;
    destruct e; cbn; rewrite <- ?app_assoc; reflexivity.
Qed.

(** A message to a channel that resolves and accepts it: an embed, where
    one is requested, with the title, description and colour of the
    dictionary, its fields in reverse order, and its time unless
    [discord.Embed] refuses it (a warning is logged then); otherwise the
    text, with the title, the description and the fields in reverse order.
    Nothing but the trace changes. *)
Theorem send_updated_feed_delivers r fd c ch s (requested : bool) :
  heap s !! r = Some fd ->
  bot_get_channel env c = Some ch ->
  bot_embed_requested env (Some ch) = Return requested ->
  channel_send env ch (message_of env fd requested) = Return tt ->
  send_updated_feed env r c s =
    (Return tt,
     with_trace (trace s
                 ++ (if requested then timestamp_warning env fd else [])
                 ++ [ChannelSend ch (message_of env fd requested) None]) s).
Proof. apply send_run_delivered. Qed.

(** A send that fails at a channel that resolves: [Forbidden] and
    [AttributeError] are caught and logged and the sender returns; any
    other exception leaves the sender. *)
Theorem send_updated_feed_failure r fd c ch s (requested : bool) (e : exn) :
  heap s !! r = Some fd ->
  bot_get_channel env c = Some ch ->
  bot_embed_requested env (Some ch) = Return requested ->
  channel_send env ch (message_of env fd requested) = Raise e ->
  send_updated_feed env r c s =
    (if caught_on_send e then Return tt else Raise e,
     with_trace (trace s
                 ++ (if requested then timestamp_warning env fd else [])
                 ++ [ChannelSend ch (message_of env fd requested) (Some e)]
                 ++ (if caught_on_send e
                     then [Log DEBUG (LogUnableToSend (channel_id ch) (guild_id ch))]
                     else [])) s).
Proof. apply send_run_failed. Qed.

Lemma delivered_to_app (t1 t2 : list event) :
  delivered_to (t1 ++ t2) = (delivered_to t1 ++ delivered_to t2)%list.
Proof.
  induction t1 as [|e t1 IH]; [reflexivity|].
  cbn. destruct e as [| | | |ch m [x|]|]; cbn; rewrite ?IH; reflexivity.
Qed.

Lemma delivered_to_warning fd : delivered_to (timestamp_warning env fd) = [].
Proof. unfold timestamp_warning. destruct (embed_rejects_timestamp _ _); reflexivity. Qed.

Lemma sends_contained r fd (channels : list Z) s :
  heap s !! r = Some fd ->
  Forall (send_contained env fd) channels ->
  exists new,
    for_each channels (fun channel => send_updated_feed env r channel) s
    = (Return tt, with_trace (trace s ++ new) s)
    /\ delivered_to new = filter (fun c => delivers env fd c = true) channels.
Proof.
  intros Hr Hall. revert s Hr.
  induction Hall as [|c channels (ch & requested & Hc & Hid & Hreq & Hsend) _ IH]; intros s Hr.
  - exists []. cbn. rewrite app_nil_r, with_trace_id. auto.
  - cbn [for_each]. unfold bind at 1.
    assert (Hdel : delivers env fd c
                   = match channel_send env ch (message_of env fd requested) with
                     | Return _ => true
                     | Raise _ => false
                     end).
    { unfold delivers. rewrite Hc, Hreq. reflexivity. }
    destruct (channel_send env ch (message_of env fd requested)) as [[]|e] eqn:Hsent.
    + rewrite (send_run_delivered r fd c ch s requested Hr Hc Hreq Hsent).
      destruct (IH (with_trace (trace s
                                ++ (if requested then timestamp_warning env fd else [])
                                ++ [ChannelSend ch (message_of env fd requested) None]) s) Hr)
        as (new & -> & Hnew).
      eexists. split.
      * cbn. rewrite <- !app_assoc. reflexivity.
      * rewrite !delivered_to_app, Hnew. rewrite filter_cons, Hdel.
        destruct (decide (true = true)) as [_|?]; [|contradiction].
        destruct requested; rewrite ?delivered_to_warning; cbn; rewrite Hid; reflexivity.
    + rewrite (send_run_failed r fd c ch s requested e Hr Hc Hreq Hsent), Hsend.
      destruct (IH (with_trace (trace s
                                ++ (if requested then timestamp_warning env fd else [])
                                ++ [ChannelSend ch (message_of env fd requested) (Some e)]
                                ++ [Log DEBUG (LogUnableToSend (channel_id ch) (guild_id ch))])
                      s) Hr)
        as (new & -> & Hnew).
      eexists. split.
      * cbn. rewrite <- !app_assoc. reflexivity.
      * rewrite !delivered_to_app, Hnew. rewrite filter_cons, Hdel.
        destruct (decide (false = true)) as [?|_]; [discriminate|].
        destruct requested; rewrite ?delivered_to_warning; reflexivity.
Qed.

(** The fan-out of an update to destinations that all resolve, where each
    send succeeds or fails with an exception the sender catches: the
    fan-out returns, and the update is delivered to exactly the
    destinations whose send succeeded, in the order of the list: a refused
    send does not keep the later destinations from receiving it. *)
Theorem fan_out_isolates_refused_sends service r fd s :
  heap s !! r = Some fd ->
  Forall (send_contained env fd) (collect_channels (cfg_guilds s) service []) ->
  let '(res, s') := fan_out env service r s in
  res = Return tt
  /\ delivered_to (trace s')
     = (delivered_to (trace s)
        ++ filter (fun c => delivers env fd c = true)
             (collect_channels (cfg_guilds s) service []))%list
  /\ cfg_feed_store s' = cfg_feed_store s.
Proof.
  intros Hr Hall. unfold fan_out, bind at 1. rewrite (deref_run _ _ _ Hr).
  unfold bind at 1, log, emit. unfold bind at 1, get_channels, bind at 1, get_state, ret.
  cbn [cfg_guilds with_trace]. unfold bind at 1.
  set (s1 := with_trace _ (with_trace _ s)).
  destruct (sends_contained r fd _ s1 Hr Hall) as (new & Hrun & Hnew).
  unfold bind at 1. cbn [fst snd]. rewrite Hrun. cbn.
  split; [reflexivity|]. split; [|reflexivity].
  rewrite !delivered_to_app, Hnew. cbn. rewrite !app_nil_r. reflexivity.
Qed.

End Sends.

(** ** Cycles *)

Section Cycles.

Variable env : Env.

Lemma check_feed_not_200 (feed : string * string) (s : state) :
  not_modified env (etags s) feed ->
  check_feed env feed s
  = (Return tt, with_trace (trace s ++ [Log DEBUG (LogNoStatusUpdate feed.1)]) s).
Proof.
  intros (tag & response & code & Htag & Hparse & Hstatus & Hcode).
  unfold check_feed, try_except, check_feed_try, bind at 1.
  unfold fetch, try_except, bind at 1, get_state. rewrite Htag. unfold lift.
  rewrite Hparse. unfold bind, attr. rewrite Hstatus.
  destruct (Z.eqb_spec code 200) as [->|_]; [contradiction|]. reflexivity.
Qed.

Lemma for_each_not_200 (feeds : list (string * string)) (s : state) :
  Forall (not_modified env (etags s)) feeds ->
  for_each feeds (check_feed env) s
  = (Return tt,
     with_trace (trace s ++ ((fun feed => Log DEBUG (LogNoStatusUpdate feed.1)) <$> feeds)) s).
Proof.
  revert s. induction feeds as [|feed feeds IH]; intros s Hall.
  - cbn. rewrite app_nil_r, with_trace_id. reflexivity.
  - apply Forall_cons in Hall as [Hfeed Hall].
    cbn [for_each]. unfold bind. rewrite (check_feed_not_200 feed s Hfeed).
    rewrite IH by exact Hall. cbn. rewrite <- app_assoc. reflexivity.
Qed.

(** A cycle in which every service has a stored etag and no fetch is
    answered with status 200: the cycle returns, logs one debug line per
    service, in the order of [FEED_URLS], and stores nothing: the etags,
    the feed store and the subscriptions stay as they are, and nothing is
    sent. *)
Theorem cycle_without_updates (s : state) :
  Forall (not_modified env (cfg_etags s)) FEED_URLS ->
  actually_check_updates env s
  = (Return tt,
     with_trace (trace s ++ ((fun feed => Log DEBUG (LogNoStatusUpdate feed.1)) <$> FEED_URLS))
       (with_etags (cfg_etags s) s)).
Proof.
  intros Hall. unfold actually_check_updates, with_config_etags.
  rewrite (for_each_not_200 FEED_URLS (with_etags (cfg_etags s) s) Hall).
  cbn [etags cfg_etags with_trace with_etags].
  destruct (decide _) as [_|Hne]; [reflexivity|contradiction].
Qed.

End Cycles.

Lemma cycle_without_updates_witness :
  actually_check_updates not_modified_env polled_state
  = (Return tt,
     with_trace (trace polled_state
                 ++ ((fun feed => Log DEBUG (LogNoStatusUpdate feed.1)) <$> FEED_URLS))
       (with_etags (cfg_etags polled_state) polled_state)).
Proof.
  apply (cycle_without_updates not_modified_env polled_state).
  unfold FEED_URLS.
  repeat (apply List.Forall_cons;
          [exists "W/1", {| status := Some 304; etag := None; body := "" |}, 304;
           repeat split; try reflexivity; lia|]).
  apply List.Forall_nil.
Defined.

(** ** The feed parser of [devcheckfeed] *)

Section Parser.

Implicit Types (sep s a b data time title content : string).

Lemma string_app_nil_l s : ("" ++ s = s)%string.
Proof. reflexivity. Qed.

Lemma prefix_app sep b : String.prefix sep (sep ++ b) = true.
Proof.
  induction sep as [|c sep IH]; [destruct b; reflexivity|].
  rewrite string_app_cons. cbn [String.prefix].
  destruct (ascii_dec c c); [exact IH|contradiction].
Qed.

Lemma string_drop_app sep b : string_drop (String.length sep) (sep ++ b) = b.
Proof.
  induction sep as [|c sep IH]; [destruct b; reflexivity|].
  rewrite string_app_cons. cbn [String.length string_drop]. exact IH.
Qed.

(** The first occurrence of [sep] in [a ++ sep ++ b] is the one after [a]
    when [sep] starts at no place of [a]. *)
Lemma partition_first sep a b :
  (forall a1 a2, a = (a1 ++ a2)%string -> a2 <> "" ->
                 String.prefix sep (a2 ++ sep ++ b) = false) ->
  sep <> "" ->
  partition sep (a ++ sep ++ b) = Some (a, b).
Proof.
  intros Hfree Hsep. induction a as [|x a IH].
  - rewrite string_app_nil_l. destruct sep as [|c sep]; [contradiction|].
    rewrite string_app_cons. cbn [partition]. rewrite <- string_app_cons.
    rewrite prefix_app, string_drop_app. reflexivity.
  - rewrite string_app_cons. cbn [partition]. rewrite <- string_app_cons.
    rewrite (Hfree "" (String x a)) by (reflexivity || discriminate).
    rewrite IH; [reflexivity|].
    intros a1 a2 -> Ha2. apply (Hfree (String x a1) a2); [reflexivity|exact Ha2].
Qed.

Lemma partition_none_suffix sep s a1 a2 :
  partition sep s = None -> s = (a1 ++ a2)%string -> a2 <> "" ->
  String.prefix sep a2 = false.
Proof.
  revert s. induction a1 as [|x a1 IH]; intros s Hnone -> Ha2.
  - rewrite string_app_nil_l in Hnone. destruct a2 as [|y a2]; [contradiction|].
    cbn [partition] in Hnone. destruct (String.prefix sep (String y a2)); [discriminate|].
    reflexivity.
  - rewrite string_app_cons in Hnone. cbn [partition] in Hnone.
    destruct (String.prefix sep (String x (a1 ++ a2))); [discriminate|].
    apply (IH (a1 ++ a2)%string); [|reflexivity|exact Ha2].
    destruct (partition sep (a1 ++ a2)) as [[? ?]|]; [discriminate|reflexivity].
Qed.

Lemma contains_false sep s : contains sep s = false -> partition sep s = None.
Proof. unfold contains. destruct (partition sep s); [discriminate|reflexivity]. Qed.

Lemma prefix_newline a2 b :
  a2 <> "" -> String.prefix nl (a2 ++ b) = String.prefix nl a2.
Proof.
  destruct a2 as [|x a2]; [contradiction|]. intros _.
  rewrite string_app_cons. unfold nl. cbn [String.prefix].
  destruct (ascii_dec "010" x); [|reflexivity].
  destruct (a2 ++ b)%string; destruct a2; reflexivity.
Qed.

Lemma prefix_space_hyphen a2 b :
  a2 <> "" -> String.prefix " -" a2 = false ->
  String.prefix " - " (a2 ++ " - " ++ b) = false.
Proof.
  destruct a2 as [|x [|y a2]]; [contradiction| |]; intros _.
  - intros _. rewrite !string_app_cons, string_app_nil_l. cbn [String.prefix].
    destruct (ascii_dec " " x); reflexivity.
  - rewrite !string_app_cons. cbn [String.prefix].
    destruct (ascii_dec " " x); [|reflexivity].
    destruct (ascii_dec "-" y); [|reflexivity].
    destruct a2; discriminate.
Qed.

Lemma split_at_most_none (n : nat) sep s :
  partition sep s = None -> split_at_most n sep s = [s].
Proof. intros H. destruct n; cbn; rewrite ?H; reflexivity. Qed.

(** A section written as the feeds write it is taken apart into its
    parts: when the time and the title are single lines and [" -"] occurs
    in neither, the field is named ["<title> - <time>"] and its value is
    the text, whatever the text holds. *)
Theorem parse_section_well_formed time title content :
  contains nl time = false ->
  contains nl title = false ->
  contains " -" (time ++ nl ++ title) = false ->
  parse_section (section_of time title content)
  = Return (Some {| name := title ++ " - " ++ time; value := content |}).
Proof.
  intros Htime Htitle Hhead.
  apply contains_false in Htime, Htitle, Hhead.
  assert (Hdata : section_of time title content
                  = ((time ++ nl ++ title) ++ " - " ++ content)%string).
  { unfold section_of. rewrite !string_app_assoc. reflexivity. }
  assert (Hcut : partition " - " (section_of time title content)
                 = Some ((time ++ nl ++ title)%string, content)).
  { rewrite Hdata. apply partition_first; [|discriminate].
    intros a1 a2 Ha Ha2. apply prefix_space_hyphen; [exact Ha2|].
    apply (partition_none_suffix _ _ a1 a2 Hhead Ha Ha2). }
  assert (Hline : partition nl (time ++ nl ++ title) = Some (time, title)).
  { apply partition_first; [|discriminate].
    intros a1 a2 Ha Ha2. rewrite prefix_newline by exact Ha2.
    apply (partition_none_suffix _ _ a1 a2 Htime Ha Ha2). }
  unfold parse_section.
  destruct (decide (section_of time title content = "")) as [Hempty|_].
  { rewrite Hempty in Hcut. discriminate. }
  cbn [split_at_most]. rewrite Hcut. cbn [list_getitem lookup list_lookup outcome_bind].
  unfold split.
  destruct (String.length (time ++ nl ++ title)) as [|n] eqn:Hlen.
  { destruct (time ++ nl ++ title)%string; [discriminate Hline|discriminate Hlen]. }
  cbn [split_at_most]. rewrite Hline, (split_at_most_none n nl title Htitle).
  reflexivity.
Qed.

Lemma list_getitem_raises (l : list string) (i : nat) (e : exn) :
  list_getitem l i = Raise e -> e = IndexError.
Proof. unfold list_getitem. destruct (l !! i); congruence. Qed.

Lemma parse_section_outcome data :
  data = "" /\ parse_section data = Return None
  \/ data <> "" /\ (exists f, parse_section data = Return (Some f))
  \/ data <> "" /\ parse_section data = Raise IndexError.
Proof.
  unfold parse_section. destruct (decide (data = "")) as [->|Hne]; [left; auto|right].
  unfold outcome_bind.
  repeat match goal with
         | |- context [match list_getitem ?l ?i with _ => _ end] =>
             let E := fresh "E" in
             destruct (list_getitem l i) as [?|?] eqn:E;
             [|apply list_getitem_raises in E; subst; right; auto]
         end.
  left. eauto.
Qed.

(** A section without [" - "], or without a line break before it, is not
    lost: a field that shows its raw text takes its place, and one warning
    is logged. *)
Theorem parse_section_malformed data (fields : list field) (warnings : nat) :
  data <> "" ->
  match partition " - " data with
  | Some (head, _) => contains nl head = false
  | None => True
  end ->
  parse_section data = Raise IndexError
  /\ parse_sections [data] fields warnings
     = Return ((fields ++ [section_error data])%list, S warnings).
Proof.
  intros Hne Hbad.
  assert (Hraise : parse_section data = Raise IndexError).
  { unfold parse_section. destruct (decide (data = "")) as [?|_]; [contradiction|].
    cbn [split_at_most].
    destruct (partition " - " data) as [[head content]|]; [|reflexivity].
    cbn [list_getitem lookup list_lookup outcome_bind].
    apply contains_false in Hbad.
    unfold split. rewrite (split_at_most_none _ nl head Hbad). reflexivity. }
  split; [exact Hraise|]. cbn [parse_sections]. rewrite Hraise. reflexivity.
Qed.

(** The block never fails on the stripped content: every section that is
    not empty gives exactly one field, an empty section gives none, and no
    more warnings are logged than fields are made. *)
Theorem standard_fields_total (strippedcontent : string) :
  exists fields warnings,
    standard_fields strippedcontent = Return (fields, warnings)
    /\ List.length fields
       = List.length (filter (fun data => data <> "") (split "=-=SPLIT=-=" strippedcontent))
    /\ (warnings <= List.length fields)%nat.
Proof.
  unfold standard_fields.
  assert (H : forall sections fields warnings,
             (warnings <= List.length fields)%nat ->
             exists fields' warnings',
               parse_sections sections fields warnings = Return (fields', warnings')
               /\ List.length fields'
                  = (List.length fields
                     + List.length (filter (fun data => data <> "") sections))%nat
               /\ (warnings' <= List.length fields')%nat).
  { induction sections as [|data sections IH]; intros fields warnings Hw.
    - exists fields, warnings. cbn. split; [reflexivity|]. split; [lia|exact Hw].
    - cbn [parse_sections]. rewrite filter_cons.
      destruct (parse_section_outcome data) as [[-> ->]|[[Hne [f ->]]|[Hne ->]]].
      + destruct (decide ("" <> "")) as [?|_]; [contradiction|]. apply IH, Hw.
      + destruct (decide (data <> "")) as [_|?]; [|contradiction].
        destruct (IH (fields ++ [f])%list warnings) as (fields' & warnings' & -> & Hlen & Hw').
        { rewrite length_app. cbn. lia. }
        exists fields', warnings'. split; [reflexivity|]. split; [|exact Hw'].
        rewrite Hlen, length_app. cbn. lia.
      + destruct (decide (data <> "")) as [_|?]; [|contradiction].
        destruct (IH (fields ++ [section_error data])%list (S warnings))
          as (fields' & warnings' & -> & Hlen & Hw').
        { rewrite length_app. cbn. lia. }
        exists fields', warnings'. split; [reflexivity|]. split; [|exact Hw'].
        rewrite Hlen, length_app. cbn. lia. }
  destruct (H (split "=-=SPLIT=-=" strippedcontent) [] 0%nat) as (fields & warnings & Hrun & Hlen & Hw).
  { cbn. lia. }
  exists fields, warnings. auto.
Qed.

End Parser.

(** ** [str.split] *)

Section Split.

Implicit Types (sep s a b : string).

Lemma prefix_cut sep s :
  String.prefix sep s = true -> s = (sep ++ string_drop (String.length sep) s)%string.
Proof.
  revert s. induction sep as [|c sep IH]; intros s; [reflexivity|].
  destruct s as [|x s]; [discriminate|]. cbn [String.prefix].
  destruct (ascii_dec c x) as [->|]; [|discriminate].
  intros H. rewrite string_app_cons. cbn [String.length string_drop].
  f_equal. apply IH, H.
Qed.

Lemma prefix_weaken sep a b :
  String.prefix sep a = true -> String.prefix sep (a ++ b) = true.
Proof.
  revert a. induction sep as [|c sep IH]; intros a.
  - intros _. destruct (a ++ b)%string; reflexivity.
  - destruct a as [|x a]; [discriminate|]. rewrite string_app_cons. cbn [String.prefix].
    destruct (ascii_dec c x); [apply IH|discriminate].
Qed.

Lemma string_drop_length (n : nat) s :
  (String.length (string_drop n s) <= String.length s - n)%nat.
Proof.
  revert s. induction n as [|n IH]; intros s; [cbn; lia|].
  destruct s as [|x s]; cbn; [lia|]. apply IH.
Qed.

(** What [partition] finds: the text is the part before, the separator
    and the part after; the part before holds no separator, and the part
    after is shorter than the text. *)
Lemma partition_found sep s a b :
  sep <> "" ->
  partition sep s = Some (a, b) ->
  s = (a ++ sep ++ b)%string
  /\ partition sep a = None
  /\ (String.length b < String.length s)%nat.
Proof.
  intros Hsep. revert a. induction s as [|x s IH]; intros a; [discriminate|].
  cbn [partition]. destruct (String.prefix sep (String x s)) eqn:Hprefix.
  - intros [= <- <-]. split; [|split].
    + rewrite string_app_nil_l. apply prefix_cut, Hprefix.
    + reflexivity.
    + destruct sep as [|c sep]; [contradiction|]. cbn [String.length string_drop].
      pose proof (string_drop_length (String.length sep) s). lia.
  - destruct (partition sep s) as [[a' b']|]; [|discriminate].
    intros [= <- <-]. destruct (IH a' eq_refl) as (Hs & Hnone & Hlen).
    split; [|split].
    + rewrite string_app_cons. f_equal. exact Hs.
    + cbn [partition]. rewrite Hnone.
      destruct (String.prefix sep (String x a')) eqn:Hp; [|reflexivity].
      apply (prefix_weaken _ _ (sep ++ b')%string) in Hp.
      rewrite string_app_cons, <- Hs, Hprefix in Hp. discriminate.
    + cbn [String.length]. lia.
Qed.

(** The pieces of a split hold no separator, and joined by the separator
    they give the text back: the count of splits is large enough for every
    occurrence. *)
Lemma split_pieces sep s :
  sep <> "" ->
  Forall (fun piece => contains sep piece = false) (split sep s)
  /\ String.concat sep (split sep s) = s.
Proof.
  intros Hsep. unfold split.
  assert (H : forall n s, (String.length s <= n)%nat ->
                          Forall (fun piece => contains sep piece = false)
                            (split_at_most n sep s)
                          /\ String.concat sep (split_at_most n sep s) = s).
  { clear s. induction n as [|n IH]; intros s Hlen.
    - destruct s; [|cbn in Hlen; lia]. cbn. split; [|reflexivity].
      apply List.Forall_cons; [reflexivity|apply List.Forall_nil].
    - cbn [split_at_most]. destruct (partition sep s) as [[a b]|] eqn:Hcut.
      + destruct (partition_found sep s a b Hsep Hcut) as (-> & Hnone & Hshort).
        destruct (IH b) as [Hfree Hjoin]; [lia|]. split.
        * apply List.Forall_cons; [|exact Hfree]. unfold contains. rewrite Hnone. reflexivity.
        * cbn [String.concat]. destruct (split_at_most n sep b) as [|p ps] eqn:Hps.
          { destruct n; cbn in Hps; [discriminate|].
            destruct (partition sep b) as [[? ?]|]; discriminate. }
          rewrite Hjoin. reflexivity.
      + split; [|reflexivity].
        apply List.Forall_cons; [|apply List.Forall_nil]. unfold contains. rewrite Hcut.
        reflexivity. }
  apply H. lia.
Qed.

End Split.

(** ** [statusset list] *)

Section Listing.

Variable env : Env.
Variable chat : Chat.

Lemma string_app_not_empty (a b : string) : b <> "" -> (a ++ b)%string <> "".
Proof.
  intros Hb. destruct a as [|x a]; [exact Hb|]. rewrite string_app_cons. discriminate.
Qed.

Lemma string_app_not_empty_l (a b : string) : a <> "" -> (a ++ b)%string <> "".
Proof.
  intros Ha. destruct a as [|x a]; [contradiction|]. rewrite string_app_cons. discriminate.
Qed.

Lemma channel_names_outcome (channel_ids : list Z) :
  match channel_names env chat channel_ids with
  | Return names =>
      List.length names = List.length channel_ids
      /\ Forall (fun c => is_Some (bot_get_channel env c)) channel_ids
  | Raise e =>
      e = AttributeError /\ Exists (fun c => bot_get_channel env c = None) channel_ids
  end.
Proof.
  induction channel_ids as [|c rest IH]; cbn [channel_names].
  - split; [reflexivity|]. apply List.Forall_nil.
  - destruct (bot_get_channel env c) as [ch|] eqn:Hc.
    + destruct (channel_names env chat rest) as [names|e]; cbn [outcome_bind].
      * destruct IH as [Hlen Hall]. split; [cbn; lia|].
        apply List.Forall_cons; [rewrite Hc; eauto|exact Hall].
      * destruct IH as [-> Hex]. split; [reflexivity|]. apply List.Exists_cons_tl, Hex.
    + split; [reflexivity|]. apply List.Exists_cons_hd, Hc.
Qed.

Lemma remove_first_length (x : string) (l : list string) :
  (List.length l <= S (List.length (remove_first x l)))%nat.
Proof.
  induction l as [|y l IH]; cbn; [lia|].
  destruct (decide (x = y)); cbn; lia.
Qed.

Lemma list_rows_outcome (items : list (string * subscription))
    (data : list (string * string)) (pos_feeds : list string) :
  match list_rows env chat items data pos_feeds with
  | Return (data', pos_feeds') =>
      (List.length data + List.length pos_feeds
       <= List.length data' + List.length pos_feeds')%nat
      /\ Forall (fun c => is_Some (bot_get_channel env c)) (listed_ids items)
  | Raise e =>
      e = AttributeError
      /\ Exists (fun c => bot_get_channel env c = None) (listed_ids items)
  end.
Proof.
  revert data pos_feeds. induction items as [|feed rest IH]; intros data pos_feeds.
  - cbn. split; [lia|]. apply List.Forall_nil.
  - cbn [list_rows]. unfold listed_ids. cbn [fmap list_fmap List.concat].
    fold (listed_ids rest).
    destruct (falsy feed.2).
    + cbn [app]. apply IH.
    + pose proof (channel_names_outcome
                    match feed.2 with SubInt c => [c] | SubList l => l end) as Hnames.
      destruct (channel_names env chat _) as [names|e]; cbn [outcome_bind].
      * destruct Hnames as [_ Hall].
        specialize (IH (data ++ [(feed.1, humanize_list chat names)])%list
                      (remove_first feed.1 pos_feeds)).
        destruct (list_rows env chat rest _ _) as [[data' pos_feeds']|e].
        -- destruct IH as [Hlen Hrest]. split.
           ++ rewrite length_app in Hlen. cbn in Hlen.
              pose proof (remove_first_length feed.1 pos_feeds). lia.
           ++ apply Forall_app. auto.
        -- destruct IH as [-> Hex]. split; [reflexivity|].
           apply Exists_app. right. exact Hex.
      * destruct Hnames as [-> Hex]. split; [reflexivity|].
        apply Exists_app. left. exact Hex.
Qed.

(** [statusset list] either builds a message that is not empty, and then
    every channel id listed under a service resolves, or it raises
    [AttributeError], and then one of the listed ids resolves to no
    channel: one deleted channel is enough for the command to fail. *)
Theorem statusset_list_message_outcome (guild_feeds : list (string * subscription)) :
  match statusset_list_message env chat guild_feeds with
  | Return msg =>
      msg <> ""
      /\ Forall (fun c => is_Some (bot_get_channel env c)) (listed_ids guild_feeds)
  | Raise e =>
      e = AttributeError
      /\ Exists (fun c => bot_get_channel env c = None) (listed_ids guild_feeds)
  end.
Proof.
  unfold statusset_list_message.
  destruct guild_feeds as [|feed rest].
  - cbn. split; [|apply List.Forall_nil].
    apply string_app_not_empty, string_app_not_empty_l. discriminate.
  - pose proof (list_rows_outcome (feed :: rest) [] (keys FEED_URLS)) as Hrows.
    destruct (list_rows env chat (feed :: rest) [] (keys FEED_URLS))
      as [[data pos_feeds]|e]; cbn [outcome_bind]; [|exact Hrows].
    destruct Hrows as [Hlen Hall]. split; [|exact Hall].
    destruct pos_feeds as [|p pos_feeds].
    + destruct data as [|row data]; [cbn in Hlen; lia|].
      apply string_app_not_empty_l. discriminate.
    + apply string_app_not_empty, string_app_not_empty_l. discriminate.
Qed.

End Listing.

(** ** [devforcestatus] *)

Section ForceStatus.

Variable env : Env.
Variable chat : Chat.

(** [devforcestatus] sends whatever [check_real_update] decides: once the
    author is let through, for a service of [FEED_URLS] whose feed is
    fetched and processed, the command reports the decision and then sends
    the update to the destinations of the service, a ghost as well as a
    new update (the polling loop sends a ghost to nobody).  Where every
    destination resolves and fails, if it fails, with an exception the
    sender catches, the command returns and the update reaches every
    destination whose send succeeds. *)
Theorem devforcestatus_sends_whatever_the_decision (ctx : context) (confirmed : bool)
    (service url : string) (feed : response) (fd : feeddict) (d : datetime) (s s0 : state) :
  dev_com chat ctx confirmed s = (Return true, s0) ->
  service ∈ keys FEED_URLS ->
  getitem service FEED_URLS = Return url ->
  feedparser_parse env url None = Return feed ->
  helper_process_feed env service feed = Return fd ->
  time fd = PyDatetime d ->
  let real := negb (bool_decide (fields <$> cfg_feed_store s0 !! service = Some (fields fd))) in
  let sent := if real then set_time (PyFloat (timestamp d)) fd else fd in
  Forall (send_contained env sent) (collect_channels (cfg_guilds s0) service []) ->
  let '(res, s') := devforcestatus env chat ctx confirmed service s in
  res = Return tt
  /\ ChannelSend (ctx_channel ctx) (MsgText ("Real update: " ++ py_str_bool real)) None
     ∈ trace s'
  /\ delivered_to (trace s')
     = (delivered_to (trace s0)
        ++ channel_id (ctx_channel ctx)
           :: filter (fun c => delivers env sent c = true)
                (collect_channels (cfg_guilds s0) service []))%list
  /\ cfg_feed_store s'
     = if real then <[service := sent]> (cfg_feed_store s0) else cfg_feed_store s0.
Proof.
  intros Hdev Hvalid Hurl Hparse Hprocess Htime real sent Hall.
  unfold devforcestatus, bind at 1. rewrite Hdev. cbn [negb].
  rewrite (bool_decide_eq_true_2 _ Hvalid). cbn [negb].
  unfold bind at 1, lift. rewrite Hurl. unfold bind at 1. rewrite Hparse.
  unfold bind at 1, process_feed, bind at 1, lift. rewrite Hprocess. unfold alloc.
  set (r := fresh (dom (heap s0))).
  set (s1 := with_heap (<[r := fd]> (heap s0)) s0).
  assert (Hr : heap s1 !! r = Some fd) by apply lookup_insert_eq.
  unfold bind at 1. rewrite (check_real_update_run service r fd s1 Hr).
  rewrite (py_eq_stored s1 service fd), Htime.
  change (cfg_feed_store s1) with (cfg_feed_store s0). fold real.
  destruct (bool_decide (fields <$> cfg_feed_store s0 !! service = Some (fields fd)))
    eqn:Hghost; subst real sent; cbn [negb] in *.
  - unfold bind at 1, ctx_send, emit. unfold bind at 1, get_channels, bind at 1, get_state, ret.
    cbn [cfg_guilds with_trace logged_fields].
    set (s2 := with_trace _ (logged_fields s1 service fd)).
    change (cfg_guilds s1) with (cfg_guilds s0).
    destruct (sends_contained env r fd _ s2 Hr Hall) as (new & -> & Hnew).
    split; [reflexivity|]. subst s2. cbn [trace with_trace logged_fields]. split.
    + rewrite !elem_of_app. left. right. apply list_elem_of_singleton. reflexivity.
    + split; [|reflexivity].
      rewrite !delivered_to_app, Hnew. cbn. rewrite ?delivered_to_app. cbn.
      rewrite ?app_nil_r, <- ?app_assoc. reflexivity.
  - assert (Hr' : heap (accepted_state s1 service r fd d) !! r
                  = Some (set_time (PyFloat (timestamp d)) fd))
      by apply heap_accepted_state.
    unfold bind at 1, ctx_send, emit. unfold bind at 1, get_channels, bind at 1, get_state, ret.
    cbn [cfg_guilds with_trace accepted_state with_cfg_feed_store with_heap logged_fields].
    set (s2 := with_trace _ _).
    change (cfg_guilds s1) with (cfg_guilds s0).
    destruct (sends_contained env r _ _ s2 Hr' Hall) as (new & -> & Hnew).
    split; [reflexivity|]. subst s2. cbn [trace with_trace]. split.
    + rewrite !elem_of_app. left. right. apply list_elem_of_singleton. reflexivity.
    + split; [|reflexivity].
      rewrite !delivered_to_app, Hnew. cbn. rewrite ?delivered_to_app. cbn.
      rewrite ?app_nil_r, <- ?app_assoc. reflexivity.
Qed.

End ForceStatus.

(** ** The migration *)

Section MigrationFacts.

Context {value : Type} (empty_dict : value).

Implicit Types (feeds : gmap string (gmap string value)) (service : string).

Lemma migrate_services_lookup (services : list string) feeds service :
  fold_left (migrate_service value empty_dict) services feeds !! service
  = if bool_decide (service ∈ services)
    then if bool_decide (service ∈ REMOVED_SERVICES) then None
         else (fun settings => <["edit_id" := empty_dict]> settings) <$> feeds !! service
    else feeds !! service.
Proof.
  revert feeds. induction services as [|x services IH]; intros feeds.
  - cbn. rewrite bool_decide_eq_false_2 by apply not_elem_of_nil. reflexivity.
  - cbn [fold_left]. rewrite IH. unfold migrate_service.
    destruct (decide (service = x)) as [->|Hne].
    + rewrite (bool_decide_eq_true_2 (x ∈ x :: services)) by apply list_elem_of_here.
      destruct (bool_decide (x ∈ REMOVED_SERVICES)).
      * rewrite lookup_delete_eq. destruct (bool_decide _); reflexivity.
      * rewrite lookup_alter_eq.
        destruct (bool_decide (x ∈ services)); [|reflexivity].
        destruct (feeds !! x) as [settings|]; [|reflexivity].
        cbn. rewrite insert_insert_eq. reflexivity.
    + assert (Hx : feeds !! service
                   = (if bool_decide (x ∈ REMOVED_SERVICES) then delete x feeds
                      else alter (fun settings => <["edit_id" := empty_dict]> settings) x feeds)
                     !! service).
      { destruct (bool_decide (x ∈ REMOVED_SERVICES)).
        - rewrite lookup_delete_ne by congruence. reflexivity.
        - rewrite lookup_alter_ne by congruence. reflexivity. }
      rewrite <- Hx.
      destruct (decide (service ∈ services)) as [Hin|Hnotin].
      * rewrite (bool_decide_eq_true_2 (service ∈ x :: services))
          by (apply list_elem_of_further, Hin).
        rewrite (bool_decide_eq_true_2 (service ∈ services)) by exact Hin. reflexivity.
      * rewrite (bool_decide_eq_false_2 (service ∈ x :: services)).
        -- rewrite (bool_decide_eq_false_2 (service ∈ services)) by exact Hnotin.
           reflexivity.
        -- intros Hin. apply elem_of_cons in Hin as [?|?]; contradiction.
Qed.

Lemma migrate_feeds_lookup feeds service :
  migrate_feeds value empty_dict feeds !! service
  = if bool_decide (service ∈ REMOVED_SERVICES) then None
    else (fun settings => <["edit_id" := empty_dict]> settings) <$> feeds !! service.
Proof.
  unfold migrate_feeds. rewrite migrate_services_lookup.
  destruct (decide (service ∈ (map_to_list feeds).*1)) as [Hin|Hnotin].
  - rewrite bool_decide_eq_true_2 by exact Hin. reflexivity.
  - rewrite bool_decide_eq_false_2 by exact Hnotin.
    assert (Hnone : feeds !! service = None).
    { apply eq_None_not_Some. intros [settings Hs]. apply Hnotin.
      apply list_elem_of_fmap. exists (service, settings). split; [reflexivity|].
      apply elem_of_map_to_list. exact Hs. }
    rewrite Hnone. destruct (bool_decide _); reflexivity.
Qed.

(** The migration keeps the channels, and what it leaves under a service
    of a channel is nothing for a service that is gone, and otherwise the
    settings as they were, with [edit_id] set to the empty dictionary. *)
Theorem migrate_to_v3_lookup (really_old : gmap Z (gmap string (gmap string value)))
    (c_id : Z) service :
  _migrate_to_v3 value empty_dict really_old !! c_id
  = migrate_feeds value empty_dict <$> really_old !! c_id
  /\ (_migrate_to_v3 value empty_dict really_old !! c_id ≫= fun feeds => feeds !! service)
     = if bool_decide (service ∈ REMOVED_SERVICES) then None
       else (fun settings => <["edit_id" := empty_dict]> settings)
              <$> (really_old !! c_id ≫= fun feeds => feeds !! service).
Proof.
  unfold _migrate_to_v3. rewrite lookup_fmap. split; [reflexivity|].
  destruct (really_old !! c_id) as [feeds|]; cbn.
  - apply migrate_feeds_lookup.
  - destruct (bool_decide _); reflexivity.
Qed.

(** Migrating twice is migrating once. *)
Theorem migrate_to_v3_idempotent (really_old : gmap Z (gmap string (gmap string value))) :
  _migrate_to_v3 value empty_dict (_migrate_to_v3 value empty_dict really_old)
  = _migrate_to_v3 value empty_dict really_old.
Proof.
  apply map_eq. intros c_id. unfold _migrate_to_v3. rewrite !lookup_fmap.
  destruct (really_old !! c_id) as [feeds|]; [|reflexivity]. cbn. f_equal.
  apply map_eq. intros service. rewrite !migrate_feeds_lookup.
  destruct (bool_decide (service ∈ REMOVED_SERVICES)); [reflexivity|].
  destruct (feeds !! service) as [settings|]; [|reflexivity].
  cbn. rewrite insert_insert_eq. reflexivity.
Qed.

End MigrationFacts.

(** ** Instances *)

Lemma lower_discord_valid : lower "Discord" ∈ keys FEED_URLS.
Proof. apply (bool_decide_unpack _). vm_compute. exact I. Qed.

Lemma statusset_remove_undoes_add_witness :
  let '(r1, s1) := statusset_add 100 "Discord" (sample_channel 7) (subscribed [1; 3] empty_state) in
  let '(r2, s2) := statusset_remove sample_env 100 (lower "Discord") (sample_channel 7) s1 in
  r1 = Return tt
  /\ guild_feeds s1 100 !! lower "Discord" = Some (SubList ([1; 3] ++ [7]))
  /\ r2 = Return tt
  /\ guild_feeds s2 100
     = <[lower "Discord" := SubList [1; 3]]> (guild_feeds (subscribed [1; 3] empty_state) 100).
Proof.
  apply (statusset_remove_undoes_add sample_env 100 "Discord" (sample_channel 7)
           (subscribed [1; 3] empty_state) [1; 3] lower_discord_valid eq_refl eq_refl).
  right. split; [reflexivity|]. apply (bool_decide_unpack _). vm_compute. exact I.
Defined.

Lemma statusset_add_twice_witness :
  let s1 := (statusset_add 100 "Discord" (sample_channel 7) empty_state).2 in
  let '(r2, s2) := statusset_add 100 "Discord" (sample_channel 7) s1 in
  exists friendly,
    r2 = Return tt
    /\ trace s2
       = (trace s1 ++ [CtxSend (ReplyAlreadyReceives (mention (sample_channel 7)) friendly)])%list
    /\ cfg_guilds s2 = cfg_guilds s1
    /\ guild_feeds s2 100 !! lower "Discord" = Some (SubList ([] ++ [7])).
Proof.
  apply (statusset_add_twice 100 "Discord" (sample_channel 7) empty_state []
           lower_discord_valid eq_refl eq_refl).
  left. split; reflexivity.
Defined.

Lemma statusset_add_legacy_entry_witness :
  let '(r, s') := statusset_add 100 "github" (sample_channel 7) legacy_guild in
  r = Raise TypeError /\ cfg_guilds s' = cfg_guilds legacy_guild /\ trace s' = trace legacy_guild.
Proof.
  apply (statusset_add_legacy_entry 100 "github" (sample_channel 7) legacy_guild 5).
  - apply (bool_decide_unpack _). vm_compute. exact I.
  - reflexivity.
  - reflexivity.
  - reflexivity.
Defined.

Lemma statusset_remove_no_entry_witness :
  let '(r, s') :=
    statusset_remove sample_env 100 "github" (sample_channel 7) (subscribed [1; 3] empty_state) in
  r = Raise KeyError
  /\ cfg_guilds s' = cfg_guilds (subscribed [1; 3] empty_state)
  /\ trace s' = trace (subscribed [1; 3] empty_state).
Proof.
  apply (statusset_remove_no_entry sample_env 100 "github" (sample_channel 7)
           (subscribed [1; 3] empty_state)).
  - apply (bool_decide_unpack _). vm_compute. exact I.
  - reflexivity.
Defined.

Lemma statusset_remove_is_case_sensitive_witness :
  statusset_remove sample_env 100 "Discord" (sample_channel 1) (subscribed [1; 3] empty_state)
  = (Return tt,
     with_trace (trace (subscribed [1; 3] empty_state) ++ [CtxSend ReplyInvalidService])
       (subscribed [1; 3] empty_state)).
Proof.
  apply (statusset_remove_is_case_sensitive sample_env 100 "Discord" (sample_channel 1)).
  vm_compute. discriminate.
Defined.

Lemma send_updated_feed_delivers_witness :
  send_updated_feed sample_env 0 1 (state_with (sample_update sample_fields 1609850000000000))
  = (Return tt,
     with_trace
       (trace (state_with (sample_update sample_fields 1609850000000000))
        ++ timestamp_warning sample_env (sample_update sample_fields 1609850000000000)
        ++ [ChannelSend (sample_channel 1)
              (message_of sample_env (sample_update sample_fields 1609850000000000) true)
              None])
       (state_with (sample_update sample_fields 1609850000000000))).
Proof.
  apply (send_updated_feed_delivers sample_env 0 (sample_update sample_fields 1609850000000000)
           1 (sample_channel 1) (state_with (sample_update sample_fields 1609850000000000))
           true); reflexivity.
Defined.

Lemma send_updated_feed_failure_witness :
  send_updated_feed refusing_env 0 3 (state_with (sample_update sample_fields 1609850000000000))
  = (Return tt,
     with_trace
       (trace (state_with (sample_update sample_fields 1609850000000000))
        ++ timestamp_warning refusing_env (sample_update sample_fields 1609850000000000)
        ++ [ChannelSend (sample_channel 3)
              (message_of refusing_env (sample_update sample_fields 1609850000000000) true)
              (Some Forbidden)]
        ++ [Log DEBUG (LogUnableToSend 3 100)])
       (state_with (sample_update sample_fields 1609850000000000))).
Proof.
  apply (send_updated_feed_failure refusing_env 0
           (sample_update sample_fields 1609850000000000) 3 (sample_channel 3)
           (state_with (sample_update sample_fields 1609850000000000)) true Forbidden);
    reflexivity.
Defined.

Lemma sample_sends_contained :
  Forall (send_contained refusing_env (sample_update sample_fields 1609850000000000)) [1; 3; 4].
Proof.
  repeat (apply List.Forall_cons;
          [eexists (sample_channel _), _; repeat split; try reflexivity; exact I|]).
  apply List.Forall_nil.
Qed.

(** Three destinations of which the second refuses the message: the first
    and the third receive it. *)
Lemma fan_out_isolates_refused_sends_witness :
  let '(res, s') :=
    fan_out refusing_env "discord" 0
      (subscribed [1; 3; 4] (state_with (sample_update sample_fields 1609850000000000))) in
  res = Return tt /\ delivered_to (trace s') = [1; 4].
Proof.
  pose proof (fan_out_isolates_refused_sends refusing_env "discord" 0
                (sample_update sample_fields 1609850000000000)
                (subscribed [1; 3; 4]
                   (state_with (sample_update sample_fields 1609850000000000)))
                eq_refl sample_sends_contained) as H.
  destruct (fan_out refusing_env "discord" 0 _) as [res s'].
  destruct H as (Hres & Hdelivered & _). split; [exact Hres|].
  rewrite Hdelivered. vm_compute. reflexivity.
Defined.

Lemma parse_section_well_formed_witness :
  parse_section
    (section_of "Jan  5, 12:40 PST" "Resolved" "This incident has been resolved - for now.")
  = Return (Some {| name := "Resolved - Jan  5, 12:40 PST";
                    value := "This incident has been resolved - for now." |}).
Proof.
  apply (parse_section_well_formed "Jan  5, 12:40 PST" "Resolved"
           "This incident has been resolved - for now."); reflexivity.
Defined.

Lemma parse_section_malformed_witness :
  parse_section "Resolved - no time line" = Raise IndexError
  /\ parse_sections ["Resolved - no time line"] [] 0
     = Return ([section_error "Resolved - no time line"], 1%nat).
Proof.
  apply (parse_section_malformed "Resolved - no time line" [] 0%nat).
  - discriminate.
  - reflexivity.
Defined.

(** The author of the cog forces the status of a service whose stored
    fields are those of the feed: a ghost, sent all the same. *)
Lemma devforcestatus_sends_whatever_the_decision_witness :
  let s0 :=
    with_cfg_feed_store
      {[ "discord" := set_time (PyFloat (timestamp {| micros := 1609850000000000 |}))
                        (sample_update sample_fields 1609850000000000) ]}
      (subscribed [1; 3; 4] empty_state) in
  let '(res, s') := devforcestatus refusing_env sample_chat sample_context false "discord" s0 in
  res = Return tt
  /\ delivered_to (trace s') = [9; 1; 4]
  /\ cfg_feed_store s' = cfg_feed_store s0.
Proof.
  cbv zeta.
  pose proof (devforcestatus_sends_whatever_the_decision refusing_env sample_chat
                sample_context false "discord" "https://discordstatus.com/history.atom"
                {| status := Some 200; etag := Some "W/1"; body := "" |}
                (sample_update sample_fields 1609850000000000)
                {| micros := 1609850000000000 |}
                (with_cfg_feed_store
                   {[ "discord" := set_time (PyFloat (timestamp {| micros := 1609850000000000 |}))
                                     (sample_update sample_fields 1609850000000000) ]}
                   (subscribed [1; 3; 4] empty_state))
                _ eq_refl) as H.
  assert (Hvalid : "discord" ∈ keys FEED_URLS).
  { apply (bool_decide_unpack _). vm_compute. exact I. }
  specialize (H Hvalid eq_refl eq_refl eq_refl eq_refl sample_sends_contained).
  destruct (devforcestatus refusing_env sample_chat sample_context false "discord" _)
    as [res s'].
  destruct H as (Hres & _ & Hdelivered & Hstore). split; [exact Hres|]. split.
  - rewrite Hdelivered. vm_compute. reflexivity.
  - exact Hstore.
Defined.

(** ** The first run *)

Section InitialDataFacts.

Variable statusapi : StatusAPI.


Lemma append_ids_all (incs : list incident) (old_ids ids : list string) :
  all_ids incs = Some ids -> append_ids incs old_ids = (true, (old_ids ++ ids)%list).
Proof.
  revert old_ids ids. induction incs as [|inc rest IH]; intros old_ids ids; cbn.
  - intros [= <-]. rewrite app_nil_r. reflexivity.
  - destruct (incident_id inc) as [id|]; [|discriminate].
    destruct (incident_updates inc) as [updates|]; [|discriminate]. cbn.
    destruct (update_ids updates) as [upd|]; [|discriminate].
    destruct (all_ids rest) as [more|] eqn:Hrest; [|discriminate].
    intros [= <-]. rewrite (IH _ more eq_refl). rewrite <- !app_assoc. reflexivity.
Qed.






Lemma collect_service_full (feed : string * string) (old_ids ids : list string)
    (logged : list initial_log) :
  service_ids statusapi feed = Some ids ->
  collect_service statusapi feed old_ids logged
  = (BlockDone, (old_ids ++ ids)%list, (logged ++ service_log statusapi feed)%list).
Proof.
  unfold service_ids, collect_service, service_log, try_collect, status_warning.
  destruct (statusapi_incidents statusapi feed.2) as [[incs|] status|e|name];
    try discriminate.
  destruct (statusapi_scheduled_maintenance statusapi feed.2)
    as [[scheduled|] status'|e|name]; try discriminate.
  destruct (all_ids incs) as [ids1|] eqn:H1; [|discriminate].
  destruct (all_ids scheduled) as [ids2|] eqn:H2; [|discriminate].
  intros [= <-]. rewrite (append_ids_all incs old_ids ids1 H1).
  rewrite (append_ids_all scheduled _ ids2 H2).
  rewrite (app_assoc old_ids). f_equal.
  destruct (status =? 200)%Z, (status' =? 200)%Z; cbn; rewrite <- ?app_assoc; reflexivity.
Qed.

(** Where the API answers both calls of every service in full, with
    whatever HTTP status, the run stores the ids of the services in the
    order of [FEEDS]: for each service its incidents, each followed by its
    updates, then its scheduled maintenances.  An answer whose status is
    not 200 is logged as a warning, after the line that starts the
    service, and its ids are stored all the same; nothing else is
    logged. *)
Theorem get_initial_data_complete (FEEDS : list (string * string)) (ids : list (list string)) :
  mapM (service_ids statusapi) FEEDS = Some ids ->
  _get_initial_data statusapi FEEDS
  = Stored (List.concat ids) (List.concat (service_log statusapi <$> FEEDS)).
Proof.
  unfold _get_initial_data.
  assert (H : forall old_ids logged,
             mapM (service_ids statusapi) FEEDS = Some ids ->
             collect_services statusapi FEEDS old_ids logged
             = Stored (old_ids ++ List.concat ids)
                 (logged ++ List.concat (service_log statusapi <$> FEEDS))).
  { revert ids. induction FEEDS as [|feed rest IH]; intros ids old_ids logged;
      cbn [collect_services].
    - intros [= <-]. cbn. rewrite !app_nil_r. reflexivity.
    - intros Hall. apply mapM_Some in Hall. apply Forall2_cons_inv_l in Hall
        as (l & ids' & Hfeed & Hrest & ->).
      rewrite (collect_service_full feed old_ids l logged Hfeed).
      rewrite (IH ids' _ _ (proj2 (mapM_Some _ _ _) Hrest)).
      rewrite fmap_cons. cbn [List.concat]. rewrite <- !app_assoc. reflexivity. }
  intros Hall. rewrite (H [] [] Hall). reflexivity.
Qed.

End InitialDataFacts.

(** Two services answered in full, the incidents with status 203: the ids
    are stored and the two warnings logged. *)
Lemma get_initial_data_complete_witness :
  _get_initial_data sample_statusapi [("discord", "srhpyqt94yxb"); ("github", "kctbh9vrtdwd")]
  = Stored
      [ "srhpyqt94yxb-1"; "srhpyqt94yxb-1a"; "srhpyqt94yxb-1b";
        "kctbh9vrtdwd-1"; "kctbh9vrtdwd-1a"; "kctbh9vrtdwd-1b" ]
      [ InitStarting "discord"; InitBadStatus "discord" 203;
        InitStarting "github"; InitBadStatus "github" 203 ].
Proof.
  apply (get_initial_data_complete sample_statusapi
           [("discord", "srhpyqt94yxb"); ("github", "kctbh9vrtdwd")]
           [ ["srhpyqt94yxb-1"; "srhpyqt94yxb-1a"; "srhpyqt94yxb-1b"];
             ["kctbh9vrtdwd-1"; "kctbh9vrtdwd-1a"; "kctbh9vrtdwd-1b"] ]).
  reflexivity.
Defined.

(** A run cancelled at its second service stores nothing, and the third
    service is not asked. *)
Example get_initial_data_cancelled :
  _get_initial_data cancelled_statusapi [("s1", "a"); ("s2", "b"); ("s3", "c")]
  = Escaped "CancelledError"
      [InitStarting "s1"; InitBadStatus "s1" 203; InitStarting "s2"].
Proof. reflexivity. Qed.
